(** * SiriusXM HLS proxy: a shallow embedding of [sxm.py]

    The development follows the class [SiriusXM] of [sxm.py] method by
    method.  Python values that come from the network are dynamically
    typed, so decoded JSON is kept as a value of type [json] and every
    subscript, attribute access and iteration is an operation that may
    raise the Python exception the interpreter would raise.  The object
    state ([self.session.cookies], [self.playlists], [self.channels]) is
    threaded through a state-and-exception monad; the upstream servers
    and the telemetry feed are oracles that see the whole history.

    Modelling conventions.
    - A Python [str] is a [string]; one character is one code point in
      the range 0..255.
    - JSON numbers are integers (the upstream protocol only uses integer
      codes); a JSON object is the association list of its items.
    - The transport answers every request whose URL has an http(s)
      scheme; time-outs and connection failures are not modelled.
    - Logging and printing have no effect on control flow and are left
      out. *)

From Stdlib Require Import ZArith Ascii String List Bool Lia.
From stdpp Require Import gmap strings list.

#[local] Set Warnings "-register-all".

(** ** Python strings *)

Module PyStr.

(** [str.isspace] on one character (code points below 256). *)
Definition isspace (c : ascii) : bool :=
  let n := nat_of_ascii c in
  ((9 <=? n) && (n <=? 13)) || ((28 <=? n) && (n <=? 32))
  || (n =? 133) || (n =? 160).

Definition lower_char (c : ascii) : ascii :=
  let n := nat_of_ascii c in
  if ((65 <=? n) && (n <=? 90)) || ((192 <=? n) && (n <=? 214))
     || ((216 <=? n) && (n <=? 222))
  then ascii_of_nat (n + 32) else c.

(** [s.lower()] *)
Fixpoint lower (s : string) : string :=
  match s with
  | EmptyString => EmptyString
  | String c r => String (lower_char c) (lower r)
  end.

Definition may_split (maxsplit : option nat) : bool :=
  match maxsplit with Some O => false | _ => true end.

(** [s.split(sep, maxsplit)] for a one-character separator;
    [maxsplit = None] is the unbounded [s.split(sep)]. *)
Fixpoint split (sep : ascii) (maxsplit : option nat) (s : string)
  : list string :=
  match s with
  | EmptyString => [EmptyString]
  | String c r =>
      if Ascii.eqb c sep && may_split maxsplit
      then EmptyString :: split sep (Nat.pred <$> maxsplit) r
      else match split sep maxsplit r with
           | h :: t => String c h :: t
           | [] => [String c EmptyString]
           end
  end.

(** [s.rsplit(sep, 1)] for a one-character separator. *)
Fixpoint rsplit1 (sep : ascii) (s : string) : list string :=
  match s with
  | EmptyString => [EmptyString]
  | String c r =>
      match rsplit1 sep r with
      | [a; b] => [String c a; b]
      | _ => if Ascii.eqb c sep then [EmptyString; r] else [String c r]
      end
  end.

(** [s.rstrip()] *)
Fixpoint rstrip (s : string) : string :=
  match s with
  | EmptyString => EmptyString
  | String c r =>
      match rstrip r with
      | EmptyString => if isspace c then EmptyString
                       else String c EmptyString
      | r' => String c r'
      end
  end.

(** [s[n:]] for [n >= 0] *)
Fixpoint slice_from (n : nat) (s : string) : string :=
  match n, s with
  | O, _ => s
  | S k, String _ r => slice_from k r
  | S _, EmptyString => EmptyString
  end.

(** [s[:n]] for [n >= 0] *)
Fixpoint slice_to (n : nat) (s : string) : string :=
  match n, s with
  | S k, String c r => String c (slice_to k r)
  | _, _ => EmptyString
  end.

(** [s[:-n]] for [n > 0] *)
Definition drop_last (n : nat) (s : string) : string :=
  slice_to (String.length s - n) s.

(** [s.endswith(suffix)] *)
Definition endswith (s suffix : string) : bool :=
  (String.length suffix <=? String.length s)
  && String.eqb (slice_from (String.length s - String.length suffix) s)
                suffix.

Fixpoint replace_from (old new : string) (skip : nat) (s : string)
  : string :=
  match s with
  | EmptyString => EmptyString
  | String c r =>
      match skip with
      | S k => replace_from old new k r
      | O =>
          if String.prefix old s
          then new +:+ replace_from old new (String.length old - 1) r
          else String c (replace_from old new 0 r)
      end
  end.

(** [s.replace(old, new)] for a non-empty [old]. *)
Definition replace (old new s : string) : string :=
  replace_from old new 0 s.

(** ['\n'.join(lines)] and friends. *)
Fixpoint join (sep : string) (l : list string) : string :=
  match l with
  | [] => EmptyString
  | [x] => x
  | x :: r => x +:+ sep +:+ join sep r
  end.

Fixpoint chars (s : string) : list string :=
  match s with
  | EmptyString => []
  | String c r => String c EmptyString :: chars r
  end.

End PyStr.

Definition nl : ascii := ascii_of_nat 10.

(** ** Python values and exceptions *)

(** The exception classes that the modelled code can meet.  The three
    URL errors of [requests] (missing schema, invalid schema, invalid
    URL) are one constructor; [SinkFailure] stands for any exception of
    the telemetry client other than [Adafruit_IO.RequestError]. *)
Inductive exn : Type :=
| KeyError | IndexError | TypeError | ValueError | AttributeError
| InvalidURL | RecursionError | RequestError | SinkFailure.

Global Instance exn_eq_dec : EqDecision exn.
Proof. solve_decision. Defined.

Inductive outcome (A : Type) : Type :=
| Ret (a : A)
| Raise (e : exn).
Arguments Ret {A} a.
Arguments Raise {A} e.

(** Decoded JSON, as [json.loads] and [Response.json] deliver it.
    [JNull] is Python's [None]. *)
Inductive json : Type :=
| JNull
| JBool (b : bool)
| JInt (z : Z)
| JStr (s : string)
| JArr (l : list json)
| JObj (items : list (string * json)).

Module Py.

(** Truth value of an object, as tested by [if x] and [not x]. *)
Definition truthy (j : json) : bool :=
  match j with
  | JNull => false
  | JBool b => b
  | JInt z => negb (z =? 0)%Z
  | JStr s => negb (String.eqb s "")
  | JArr l => match l with [] => false | _ => true end
  | JObj kv => match kv with [] => false | _ => true end
  end.

(** [j == z] for an integer literal [z] ([True == 1] holds in Python). *)
Definition eq_int (j : json) (z : Z) : bool :=
  match j with
  | JInt z' => (z' =? z)%Z
  | JBool b => ((if b then 1 else 0) =? z)%Z
  | _ => false
  end.

(** [j == s] for a string [s]. *)
Definition eq_str (j : json) (s : string) : bool :=
  match j with
  | JStr s' => String.eqb s' s
  | _ => false
  end.

Fixpoint assoc (k : string) (kv : list (string * json)) : option json :=
  match kv with
  | [] => None
  | (k', v) :: r => if String.eqb k' k then Some v else assoc k r
  end.

(** [j[k]] for a string key. *)
Definition getitem (j : json) (k : string) : outcome json :=
  match j with
  | JObj kv => match assoc k kv with
               | Some v => Ret v
               | None => Raise KeyError
               end
  | _ => Raise TypeError
  end.

(** [l[i]] on a Python sequence of known length, negative indices
    counting from the end. *)
Definition seq_index {A} (l : list A) (i : Z) : outcome A :=
  let n := Z.of_nat (length l) in
  let i' := (if i <? 0 then i + n else i)%Z in
  if (i' <? 0)%Z then Raise IndexError
  else match nth_error l (Z.to_nat i') with
       | Some x => Ret x
       | None => Raise IndexError
       end.

(** [j[i]] for an integer index. *)
Definition getindex (j : json) (i : Z) : outcome json :=
  match j with
  | JArr l => seq_index l i
  | JStr s => seq_index (JStr <$> PyStr.chars s) i
  | JObj _ => Raise KeyError
  | _ => Raise TypeError
  end.

(** [x.get(k, default)]: only a dict has the method. *)
Definition dict_get (j : json) (k : string) (default : json)
  : outcome json :=
  match j with
  | JObj kv => Ret (match assoc k kv with Some v => v | None => default end)
  | _ => Raise AttributeError
  end.

(** [x.lower()]: only a str has the method. *)
Definition str_lower (j : json) : outcome json :=
  match j with
  | JStr s => Ret (JStr (PyStr.lower s))
  | _ => Raise AttributeError
  end.

(** [x.replace(old, new)]: only a str has the method. *)
Definition str_replace (j : json) (old new : string) : outcome string :=
  match j with
  | JStr s => Ret (PyStr.replace old new s)
  | _ => Raise AttributeError
  end.

(** The items a [for] loop visits. *)
Definition iter (j : json) : outcome (list json) :=
  match j with
  | JArr l => Ret l
  | JObj kv => Ret ((fun p => JStr (fst p)) <$> kv)
  | JStr s => Ret (JStr <$> PyStr.chars s)
  | _ => Raise TypeError
  end.

(** Keys of a Python dict: hashable values up to [==]. *)
Inductive key : Type := KNone | KInt (z : Z) | KStr (s : string).

Global Instance key_eq_dec : EqDecision key.
Proof. solve_decision. Defined.

Global Instance key_countable : Countable key.
Proof.
  refine (inj_countable'
    (fun k => match k with
              | KNone => inl ()
              | KInt z => inr (inl z)
              | KStr s => inr (inr s)
              end)
    (fun x => match x with
              | inl _ => KNone
              | inr (inl z) => KInt z
              | inr (inr s) => KStr s
              end) _).
  intros []; reflexivity.
Defined.

(** Hashing a value for use as a dict key; lists and dicts are
    unhashable. *)
Definition hash (j : json) : outcome key :=
  match j with
  | JNull => Ret KNone
  | JBool b => Ret (KInt (if b then 1 else 0))
  | JInt z => Ret (KInt z)
  | JStr s => Ret (KStr s)
  | JArr _ | JObj _ => Raise TypeError
  end.

End Py.

(** Exceptions inside pure expressions. *)
Definition obind {A B} (o : outcome A) (k : A -> outcome B) : outcome B :=
  match o with
  | Ret a => k a
  | Raise e => Raise e
  end.

Notation "x <~ o ;; k" := (obind o (fun x => k))
  (at level 20, o at level 99, k at level 200, only parsing).

(** A chain of subscripts [j[s1][s2]...], evaluated left to right. *)
Inductive sel : Type := K (k : string) | I (i : Z).

Definition subscript (j : json) (s : sel) : outcome json :=
  match s with
  | K k => Py.getitem j k
  | I i => Py.getindex j i
  end.

Fixpoint subscripts (j : json) (p : list sel) : outcome json :=
  match p with
  | [] => Ret j
  | s :: p' => v <~ subscript j s ;; subscripts v p'
  end.

(** ** The session object and its environment *)

(** The five places of [sxm.py] that talk to the network. *)
Inductive callsite : Type :=
| RestGet      (* [session.get] in [SiriusXM.get] *)
| RestPost     (* [session.post] in [SiriusXM.post] *)
| MasterGet    (* [session.get] in [get_playlist_variant_url] *)
| VariantGet   (* [session.get] in [get_playlist] *)
| SegmentGet.  (* [session.get] in [get_segment] *)

Global Instance callsite_eq_dec : EqDecision callsite.
Proof. solve_decision. Defined.

Record request : Type := mkRequest {
  rq_site : callsite;
  rq_url : string;
  rq_params : list (string * json)
}.

(** An HTTP response: [status_code], the body ([text] and [content]),
    what [Response.json] gives ([None] when it raises [ValueError]) and
    the cookies the response sets ([Some v]) or expires ([None]). *)
Record reply : Type := mkReply {
  status_code : Z;
  body : string;
  body_json : option json;
  set_cookies : list (string * option string)
}.

Inductive event : Type :=
| EHttp (rq : request) (rp : reply)
| ESend (payload : json) (failure : option exn).

(** What the program cannot control: the two library decoders used on
    cookie payloads, the upstream servers and the telemetry feed.  The
    servers and the feed answer as a function of everything that has
    happened so far. *)
Record Env : Type := mkEnv {
  unquote : string -> string;
  json_loads : string -> option json;
  net : list event -> request -> reply;
  sink : list event -> json -> option exn
}.

(** [self]: the cookie jar of [self.session], [self.playlists],
    [self.channels], and the history of external interactions.  The jar
    is kept by cookie name: it stands for the jars in which no two
    cookies (of different domains or paths) share a name, the ones on
    which a subscript of the jar either finds its cookie or raises
    [KeyError]. *)
Record State : Type := mkState {
  cookies : gmap string string;
  playlists : gmap Py.key (option string);
  channels : json;
  log : list event
}.

Definition M (A : Type) : Type := State -> outcome A * State.

Definition ret {A} (a : A) : M A := fun st => (Ret a, st).

Definition raise {A} (e : exn) : M A := fun st => (Raise e, st).

Definition bind {A B} (m : M A) (k : A -> M B) : M B :=
  fun st =>
    match m st with
    | (Ret a, st') => k a st'
    | (Raise e, st') => (Raise e, st')
    end.

Definition lift {A} (o : outcome A) : M A := fun st => (o, st).

(** [try: body except (classes): handler] *)
Definition try_except {A} (body : M A) (classes : list exn) (handler : M A)
  : M A :=
  fun st =>
    match body st with
    | (Raise e, st') =>
        if bool_decide (e ∈ classes) then handler st' else (Raise e, st')
    | r => r
    end.

Notation "x <- m ;; k" := (bind m (fun x => k))
  (at level 20, m at level 99, k at level 200, only parsing).

(** [name in jar], for a jar whose cookies have values that are not
    empty (the library reports a cookie with an empty value as
    absent). *)
Definition has_cookie (name : string) (jar : gmap string string) : bool :=
  match jar !! name with Some _ => true | None => false end.

Definition update_jar (jar : gmap string string)
  (cs : list (string * option string)) : gmap string string :=
  foldl (fun j c => match c.2 with
                    | Some v => <[c.1 := v]> j
                    | None => delete c.1 j
                    end) jar cs.

(** [requests] refuses a URL without an http(s) scheme.  Only the
    scheme is tested here: URLs with leading white space, which the
    library strips first, and URLs without a host, which it refuses
    too, are outside the model. *)
Definition url_sendable (u : string) : bool :=
  let l := PyStr.lower u in
  String.prefix "http://" l || String.prefix "https://" l.

Definition USER_AGENT : string :=
  "Mozilla/5.0 (Macintosh; Intel Mac OS X 10_12_6) AppleWebKit/604.5.6 (KHTML, like Gecko) Version/11.0.3 Safari/604.5.6".

Definition REST_FORMAT (method : string) : string :=
  "https://player.siriusxm.com/rest/v2/experience/modules/" +:+ method.

Definition LIVE_PRIMARY_HLS : string :=
  "https://siriusxm-priprodlive.akamaized.net".

(** [self.session.get(url, params=...)] / [self.session.post(url, ...)]:
    the request is recorded, the servers answer, and the jar absorbs the
    cookies of the answer. *)
Definition session_request (E : Env) (site : callsite) (u : string)
  (params : list (string * json)) : M reply :=
  fun st =>
    if url_sendable u then
      let rq := mkRequest site u params in
      let rp := net E (log st) rq in
      (Ret rp,
       mkState (update_jar (cookies st) (set_cookies rp)) (playlists st)
               (channels st) (log st ++ [EHttp rq rp]))
    else (Raise InvalidURL, st).

(** The same call when the URL expression may be [None]: [requests]
    turns it into the text ['None'], which has no scheme. *)
Definition session_get (E : Env) (site : callsite) (u : option string)
  (params : list (string * json)) : M reply :=
  match u with
  | Some u => session_request E site u params
  | None => raise InvalidURL
  end.

(** [res.json()] *)
Definition res_json (res : reply) : outcome json :=
  match body_json res with
  | Some j => Ret j
  | None => Raise ValueError
  end.

(** [aio.send_data(now_playing_feed.key, json.dumps(payload))] *)
Definition aio_send_data (E : Env) (payload : json) : M unit :=
  fun st =>
    let r := sink E (log st) payload in
    (match r with None => Ret tt | Some e => Raise e end,
     mkState (cookies st) (playlists st) (channels st)
             (log st ++ [ESend payload r])).

Definition set_channels (c : json) : M unit :=
  fun st => (Ret tt, mkState (cookies st) (playlists st) c (log st)).

(** [self.playlists[k] = v] *)
Definition store_playlist (k : Py.key) (v : option string) : M unit :=
  fun st =>
    (Ret tt,
     mkState (cookies st) (<[k := v]> (playlists st)) (channels st) (log st)).

Definition logged_in (jar : gmap string string) : bool :=
  has_cookie "SXMAUTHNEW" jar.

Definition authenticated (jar : gmap string string) : bool :=
  has_cookie "AWSALB" jar && has_cookie "JSESSIONID" jar.

(** ['{token, consumer, gupId}'] *)
Definition cdn_params (token gup_id : json) : list (string * json) :=
  [("token", token); ("consumer", JStr "k2"); ("gupId", gup_id)].

(** The loop of [get_playlist_variant_url]: the first line that ends in
    [.m3u8] once stripped, as a sibling of [url]. *)
Fixpoint first_variant (url : string) (lines : list string)
  : outcome (option string) :=
  match lines with
  | [] => Ret None
  | x :: rest =>
      if PyStr.endswith (PyStr.rstrip x) ".m3u8"
      then dir <~ Py.seq_index (PyStr.rsplit1 "/" url) 0 ;;
           Ret (Some (dir +:+ "/" +:+ PyStr.rstrip x))
      else first_variant url rest
  end.

(** The loop of [get_channel] over the catalog. *)
Fixpoint find_channel (name : string) (l : list json)
  : outcome (json * json) :=
  match l with
  | [] => Ret (JNull, JNull)
  | x :: rest =>
      let found :=
        g <~ Py.getitem x "channelGuid" ;;
        c <~ Py.getitem x "channelId" ;;
        Ret (g, c) in
      n <~ Py.dict_get x "name" (JStr "") ;;
      n <~ Py.str_lower n ;;
      if Py.eq_str n name then found else
      c <~ Py.dict_get x "channelId" (JStr "") ;;
      c <~ Py.str_lower c ;;
      if Py.eq_str c name then found else
      num <~ Py.dict_get x "siriusChannelNumber" JNull ;;
      if Py.eq_str num name then found else
      find_channel name rest
  end.

(** The segment-rewriting loop of [get_playlist]:
    [for x in range(len(lines)): if ...: lines[x] = ...]. *)
Definition rewrite_line (base_path : string) (lines : list string) (x : nat)
  : list string :=
  match lines !! x with
  | Some l =>
      if PyStr.endswith (PyStr.rstrip l) ".aac"
      then <[x := base_path +:+ "/" +:+ l]> lines
      else lines
  | None => lines
  end.

Definition rewrite_lines (base_path : string) (lines : list string)
  : list string :=
  foldl (rewrite_line base_path) lines (seq 0 (length lines)).

(** The tail of [get_playlist] after a 200 answer. *)
Definition rewrite_playlist (url text : string) : outcome string :=
  base_url <~ Py.seq_index (PyStr.rsplit1 "/" url) 0 ;;
  base_path <~
    Py.seq_index (PyStr.split "/" (Some 1) (PyStr.slice_from 8 base_url)) 1 ;;
  Ret (PyStr.join (String nl "")
         (rewrite_lines base_path (PyStr.split nl None text))).

Definition live_channel_data : list sel :=
  [K "ModuleListResponse"; K "moduleList"; K "modules"; I 0;
   K "moduleResponse"; K "liveChannelData"].

Definition last_cut : list sel :=
  [K "markerLists"; I 3; K "markers"; I (-1); K "cut"].

(** What the handler sends back to the media player. *)
Record response : Type := mkResponse {
  resp_status : Z;
  resp_content_type : option string;
  resp_body : string
}.

(** [base64.b64decode('0Nsco7MAgxowGvkUT8aYag==')] *)
Definition HLS_AES_KEY : string :=
  string_of_list_ascii
    (ascii_of_nat <$>
       [208; 219; 28; 163; 179; 0; 131; 26; 48; 26; 249; 20; 79; 198; 152; 106]).

(** ** The methods of [SiriusXM] *)

Section SiriusXM.

Variable E : Env.

Definition is_logged_in : M bool :=
  fun st => (Ret (logged_in (cookies st)), st).

Definition is_session_authenticated : M bool :=
  fun st => (Ret (authenticated (cookies st)), st).

(** [self.session.cookies[name]] *)
Definition cookie (name : string) : M string :=
  fun st =>
    (match cookies st !! name with
     | Some v => Ret v
     | None => Raise KeyError
     end, st).

(** The part of [get] and [post] after the authentication guard; it is
    all of the method when called with [authenticate=False]. *)
Definition send (site : callsite) (method : string) : M json :=
  res <- session_request E site (REST_FORMAT method) [] ;;
  if negb (status_code res =? 200)%Z then ret JNull
  else try_except (lift (res_json res)) [ValueError] (ret JNull).

Definition login : M bool :=
  data <- send RestPost "modify/authentication" ;;
  if negb (Py.truthy data) then ret false
  else
    try_except
      (s <- lift (subscripts data [K "ModuleListResponse"; K "status"]) ;;
       if Py.eq_int s 1 then is_logged_in else ret false)
      [KeyError]
      (ret false).

Definition authenticate : M bool :=
  li <- is_logged_in ;;
  ok <- (if li then ret true else login) ;;
  if negb ok then ret false
  else
    data <- send RestPost "resume?OAtrial=false" ;;
    if negb (Py.truthy data) then ret false
    else
      try_except
        (s <- lift (subscripts data [K "ModuleListResponse"; K "status"]) ;;
         if Py.eq_int s 1 then is_session_authenticated else ret false)
        [KeyError]
        (ret false).

(** The guard [if authenticate and not self.is_session_authenticated()
    and not self.authenticate(): return None] followed by the call. *)
Definition guarded (site : callsite) (method : string)
  (authenticate_first : bool) : M json :=
  if authenticate_first then
    a <- is_session_authenticated ;;
    if a then send site method
    else
      ok <- authenticate ;;
      if ok then send site method else ret JNull
  else send site method.

Definition get (method : string) (authenticate_first : bool) : M json :=
  guarded RestGet method authenticate_first.

Definition post (method : string) (authenticate_first : bool) : M json :=
  guarded RestPost method authenticate_first.

Definition get_sxmak_token : M json :=
  try_except
    (v <- cookie "SXMAKTOKEN" ;;
     a <- lift (Py.seq_index (PyStr.split "=" (Some 1) v) 1) ;;
     b <- lift (Py.seq_index (PyStr.split "," (Some 1) a) 0) ;;
     ret (JStr b))
    [KeyError; IndexError]
    (ret JNull).

Definition get_gup_id : M json :=
  try_except
    (v <- cookie "SXMDATA" ;;
     j <- lift (match json_loads E (unquote E v) with
                | Some j => Ret j
                | None => Raise ValueError
                end) ;;
     lift (Py.getitem j "gupId"))
    [KeyError; ValueError]
    (ret JNull).

Definition get_song_info (guid channel_id : json) (full_data : bool)
  : M json :=
  data <- get "tune/now-playing-live" true ;;
  if negb (Py.truthy data) then ret JNull
  else
    musicdata <- lift (subscripts data live_channel_data) ;;
    station <- lift (subscripts musicdata
                       [K "markerLists"; I 0; K "markers"; I 0;
                        K "episode"; K "longTitle"]) ;;
    _ <- lift (subscripts musicdata (last_cut ++ [K "title"])) ;;
    _ <- lift (subscripts musicdata
                 (last_cut ++ [K "artists"; I 0; K "name"])) ;;
    _ <- try_except
           (title <- lift (subscripts musicdata (last_cut ++ [K "title"])) ;;
            artist <- lift (subscripts musicdata
                              (last_cut ++ [K "artists"; I 0; K "name"])) ;;
            aio_send_data E
              (JObj [("title", title); ("artist", artist);
                     ("station", station); ("playing", JBool true)]))
           [RequestError]
           (ret tt) ;;
    if full_data then ret data else ret JNull.

Definition get_playlist_variant_url (url : string) : M (option string) :=
  token <- get_sxmak_token ;;
  gup_id <- get_gup_id ;;
  res <- session_request E MasterGet url (cdn_params token gup_id) ;;
  if negb (status_code res =? 200)%Z then ret None
  else lift (first_variant url (PyStr.split nl None (body res))).

(** The loop over [hlsAudioInfos] at the end of [get_playlist_url]. *)
Fixpoint select_large (channel_id : json) (infos : list json)
  : M (option string) :=
  match infos with
  | [] => ret None
  | playlist_info :: rest =>
      size <- lift (Py.getitem playlist_info "size") ;;
      if Py.eq_str size "LARGE" then
        u <- lift (Py.getitem playlist_info "url") ;;
        playlist_url <-
          lift (Py.str_replace u "%Live_Primary_HLS%" LIVE_PRIMARY_HLS) ;;
        v <- get_playlist_variant_url playlist_url ;;
        k <- lift (Py.hash channel_id) ;;
        _ <- store_playlist k v ;;
        ret v
      else select_large channel_id rest
  end.

Fixpoint get_playlist_url (guid channel_id : json) (use_cache : bool)
  (max_attempts : nat) : M (option string) :=
  _ <- get_song_info guid channel_id false ;;
  cached <-
    (if use_cache then
       k <- lift (Py.hash channel_id) ;;
       fun st => (Ret (playlists st !! k), st)
     else ret None) ;;
  match cached with
  | Some url => ret url
  | None =>
      data <- get "tune/now-playing-live" true ;;
      if negb (Py.truthy data) then ret None
      else
        code <-
          try_except
            (_ <- lift (subscripts data [K "ModuleListResponse"; K "status"]) ;;
             _ <- lift (subscripts data
                          [K "ModuleListResponse"; K "messages"; I 0;
                           K "message"]) ;;
             c <- lift (subscripts data
                          [K "ModuleListResponse"; K "messages"; I 0;
                           K "code"]) ;;
             ret (Some c))
            [KeyError; IndexError]
            (ret None) ;;
        match code with
        | None => ret None
        | Some message_code =>
            if Py.eq_int message_code 201 || Py.eq_int message_code 208
            then
              match max_attempts with
              | S m =>
                  ok <- authenticate ;;
                  if ok then get_playlist_url guid channel_id use_cache m
                  else ret None
              | O => ret None
              end
            else if negb (Py.eq_int message_code 100) then ret None
            else
              infos <-
                try_except
                  (p <- lift (subscripts data
                                (live_channel_data ++ [K "hlsAudioInfos"])) ;;
                   ret (Some p))
                  [KeyError; IndexError]
                  (ret None) ;;
              match infos with
              | None => ret None
              | Some ps =>
                  l <- lift (Py.iter ps) ;;
                  select_large channel_id l
              end
        end
  end.

(** The loop over [hlsAudioInfos] at the end of [get_playlist_info]:
    the variant URL is stored, the channel data is returned. *)
Fixpoint select_large_info (channel_id data : json) (infos : list json)
  : M json :=
  match infos with
  | [] => ret JNull
  | playlist_info :: rest =>
      size <- lift (Py.getitem playlist_info "size") ;;
      if Py.eq_str size "LARGE" then
        u <- lift (Py.getitem playlist_info "url") ;;
        playlist_url <-
          lift (Py.str_replace u "%Live_Primary_HLS%" LIVE_PRIMARY_HLS) ;;
        v <- get_playlist_variant_url playlist_url ;;
        k <- lift (Py.hash channel_id) ;;
        _ <- store_playlist k v ;;
        lift (subscripts data live_channel_data)
      else select_large_info channel_id data rest
  end.

Definition get_playlist_info (guid channel_id : json) (use_cache : bool)
  (max_attempts : nat) : M json :=
  data <- get "tune/now-playing-live" true ;;
  if negb (Py.truthy data) then ret JNull
  else
    code <-
      try_except
        (_ <- lift (subscripts data [K "ModuleListResponse"; K "status"]) ;;
         _ <- lift (subscripts data
                      [K "ModuleListResponse"; K "messages"; I 0;
                       K "message"]) ;;
         c <- lift (subscripts data
                      [K "ModuleListResponse"; K "messages"; I 0;
                       K "code"]) ;;
         ret (Some c))
        [KeyError; IndexError]
        (ret None) ;;
    match code with
    | None => ret JNull
    | Some message_code =>
        let m3u8 : M json :=
          infos <-
            try_except
              (p <- lift (subscripts data
                            (live_channel_data ++ [K "hlsAudioInfos"])) ;;
               mydata <- lift (subscripts data live_channel_data) ;;
               _ <- lift (subscripts mydata (last_cut ++ [K "title"])) ;;
               ret (Some p))
              [KeyError; IndexError]
              (ret None) ;;
          match infos with
          | None => ret JNull
          | Some ps =>
              l <- lift (Py.iter ps) ;;
              select_large_info channel_id data l
          end in
        if Py.eq_int message_code 201 || Py.eq_int message_code 208
        then
          match max_attempts with
          | S _ =>
              ok <- authenticate ;;
              if ok then m3u8 else ret JNull
          | O => ret JNull
          end
        else if negb (Py.eq_int message_code 100) then ret JNull
        else m3u8
    end.

Definition get_channels : M json :=
  ch <- (fun st => (Ret (channels st), st)) ;;
  if negb (Py.truthy ch) then
    data <- post "get" true ;;
    (* the pair [(None, None)] *)
    if negb (Py.truthy data) then ret (JArr [JNull; JNull])
    else
      try_except
        (c <- lift (subscripts data
                      [K "ModuleListResponse"; K "moduleList"; K "modules";
                       I 0; K "moduleResponse"; K "contentData";
                       K "channelListing"; K "channels"]) ;;
         _ <- set_channels c ;;
         ret c)
        [KeyError; IndexError]
        (ret (JArr []))
  else ret ch.

Definition get_channel (name : string) : M (json * json) :=
  let name := PyStr.lower name in
  chans <- get_channels ;;
  l <- lift (Py.iter chans) ;;
  lift (find_channel name l).

(** [depth] is the number of nested activations of [get_playlist] the
    interpreter still allows before it raises [RecursionError]. *)
Fixpoint get_playlist (depth : nat) (name : string) (use_cache : bool)
  : M (option string) :=
  match depth with
  | O => raise RecursionError
  | S d =>
      gc <- get_channel name ;;
      let guid := gc.1 in
      let channel_id := gc.2 in
      if negb (Py.truthy guid) || negb (Py.truthy channel_id) then ret None
      else
        url <- get_playlist_url guid channel_id use_cache 5 ;;
        token <- get_sxmak_token ;;
        gup_id <- get_gup_id ;;
        res <- session_get E VariantGet url (cdn_params token gup_id) ;;
        if (status_code res =? 403)%Z then get_playlist d name false
        else if negb (status_code res =? 200)%Z then ret None
        else
          u <- lift (match url with
                     | Some u => Ret u
                     | None => Raise AttributeError
                     end) ;;
          text <- lift (rewrite_playlist u (body res)) ;;
          ret (Some text)
  end.

Fixpoint get_segment (depth : nat) (path : string) (max_attempts : nat)
  : M (option string) :=
  let url := LIVE_PRIMARY_HLS +:+ "/" +:+ path in
  token <- get_sxmak_token ;;
  gup_id <- get_gup_id ;;
  res <- session_request E SegmentGet url (cdn_params token gup_id) ;;
  if (status_code res =? 403)%Z then
    match max_attempts with
    | S m =>
        channel <- lift (Py.seq_index (PyStr.split "/" (Some 2) path) 1) ;;
        _ <- get_playlist depth channel false ;;
        get_segment depth path m
    | O => ret None
    end
  else if negb (status_code res =? 200)%Z then ret None
  else ret (Some (body res)).

(** *** The handler [SiriusHandler.do_GET] *)

Definition do_GET (depth : nat) (path : string) : M response :=
  if PyStr.endswith path ".m3u8" then
    last <- lift (Py.seq_index (PyStr.rsplit1 "/" path) 1) ;;
    data <- get_playlist depth (PyStr.drop_last 5 last) true ;;
    match data with
    | Some text =>
        if negb (String.eqb text "")
        then ret (mkResponse 200 (Some "application/x-mpegURL") text)
        else ret (mkResponse 500 None "")
    | None => ret (mkResponse 500 None "")
    end
  else if PyStr.endswith path ".aac" then
    data <- get_segment depth (PyStr.slice_from 1 path) 5 ;;
    match data with
    | Some bytes =>
        if negb (String.eqb bytes "")
        then ret (mkResponse 200 (Some "audio/x-aac") bytes)
        else ret (mkResponse 500 None "")
    | None => ret (mkResponse 500 None "")
    end
  else if PyStr.endswith path "/key/1" then
    ret (mkResponse 200 (Some "text/plain") HLS_AES_KEY)
  else ret (mkResponse 500 None "").

End SiriusXM.

(** ** A concrete environment for examples

    The theorems below hold for every [Env].  Closed examples need one,
    so here are executable stand-ins for the two library decoders.
    [Lib.unquote] agrees with [urllib.parse.unquote] when every escape
    is below [%80]; [Lib.loads] agrees with [json.loads] on texts made
    of [null], [true], [false], integers, strings without [\u] escapes,
    arrays and objects, and rejects every other text. *)

Module Lib.

Definition hex_digit (c : ascii) : option nat :=
  let n := nat_of_ascii c in
  if (48 <=? n) && (n <=? 57) then Some (n - 48)
  else if (65 <=? n) && (n <=? 70) then Some (n - 55)
  else if (97 <=? n) && (n <=? 102) then Some (n - 87)
  else None.

Fixpoint unquote (s : string) : string :=
  match s with
  | String "%" (String a (String b r) as r1) =>
      match hex_digit a, hex_digit b with
      | Some x, Some y => String (ascii_of_nat (16 * x + y)) (unquote r)
      | _, _ => String "%" (unquote r1)
      end
  | String c r => String c (unquote r)
  | EmptyString => EmptyString
  end.

Definition dquote : ascii := ascii_of_nat 34.

Definition is_ws (c : ascii) : bool :=
  let n := nat_of_ascii c in
  (n =? 32) || (n =? 9) || (n =? 10) || (n =? 13).

Fixpoint skip_ws (s : string) : string :=
  match s with
  | String c r => if is_ws c then skip_ws r else s
  | EmptyString => EmptyString
  end.

Definition is_digit (c : ascii) : bool :=
  let n := nat_of_ascii c in (48 <=? n) && (n <=? 57).

(** Digits at the front of [s], most significant first. *)
Fixpoint digits (s : string) (acc : Z) : Z * string :=
  match s with
  | String c r =>
      if is_digit c
      then digits r (10 * acc + Z.of_nat (nat_of_ascii c - 48))%Z
      else (acc, s)
  | EmptyString => (acc, s)
  end.

Definition number_ends (s : string) : bool :=
  match s with
  | String c _ => negb (Ascii.eqb c "." || Ascii.eqb c "e" || Ascii.eqb c "E")
  | EmptyString => true
  end.

Definition natural (s : string) : option (Z * string) :=
  match s with
  | String c r =>
      if Ascii.eqb c "0"
      then match r with
           | String d _ => if is_digit d then None
                           else if number_ends r then Some (0%Z, r) else None
           | EmptyString => Some (0%Z, r)
           end
      else if is_digit c
      then let '(z, r') := digits s 0 in
           if number_ends r' then Some (z, r') else None
      else None
  | EmptyString => None
  end.

Definition unescape (c : ascii) : option ascii :=
  if Ascii.eqb c dquote then Some dquote
  else if Ascii.eqb c "\" then Some "\"%char
  else if Ascii.eqb c "/" then Some "/"%char
  else if Ascii.eqb c "b" then Some (ascii_of_nat 8)
  else if Ascii.eqb c "f" then Some (ascii_of_nat 12)
  else if Ascii.eqb c "n" then Some (ascii_of_nat 10)
  else if Ascii.eqb c "r" then Some (ascii_of_nat 13)
  else if Ascii.eqb c "t" then Some (ascii_of_nat 9)
  else None.

(** The characters of a string literal after its opening quote. *)
Fixpoint chars_until_quote (s : string) : option (string * string) :=
  match s with
  | EmptyString => None
  | String c r =>
      if Ascii.eqb c dquote then Some (EmptyString, r)
      else if Ascii.eqb c "\" then
        match r with
        | String e r' =>
            match unescape e, chars_until_quote r' with
            | Some x, Some (t, rest) => Some (String x t, rest)
            | _, _ => None
            end
        | EmptyString => None
        end
      else if nat_of_ascii c <? 32 then None
      else match chars_until_quote r with
           | Some (t, rest) => Some (String c t, rest)
           | None => None
           end
  end.

Fixpoint set_item (k : string) (v : json) (items : list (string * json))
  : list (string * json) :=
  match items with
  | [] => [(k, v)]
  | (k', v') :: r =>
      if String.eqb k' k then (k', v) :: r else (k', v') :: set_item k v r
  end.

Definition parser : Type := string -> option (json * string).

Fixpoint elements (fuel : nat) (value : parser) (s : string)
  (acc : list json) : option (json * string) :=
  match fuel with
  | O => None
  | S f =>
      match value s with
      | Some (v, r) =>
          match skip_ws r with
          | String c r' =>
              if Ascii.eqb c "," then elements f value r' (acc ++ [v])
              else if Ascii.eqb c "]" then Some (JArr (acc ++ [v]), r')
              else None
          | EmptyString => None
          end
      | None => None
      end
  end.

Fixpoint members (fuel : nat) (value : parser) (s : string)
  (acc : list (string * json)) : option (json * string) :=
  match fuel with
  | O => None
  | S f =>
      match skip_ws s with
      | String q r =>
          if Ascii.eqb q dquote then
            match chars_until_quote r with
            | Some (k, r1) =>
                match skip_ws r1 with
                | String c r2 =>
                    if Ascii.eqb c ":" then
                      match value r2 with
                      | Some (v, r3) =>
                          match skip_ws r3 with
                          | String d r4 =>
                              if Ascii.eqb d ","
                              then members f value r4 (set_item k v acc)
                              else if Ascii.eqb d "}"
                              then Some (JObj (set_item k v acc), r4)
                              else None
                          | EmptyString => None
                          end
                      | None => None
                      end
                    else None
                | EmptyString => None
                end
            | None => None
            end
          else None
      | EmptyString => None
      end
  end.

Definition literal (word : string) (v : json) (s : string)
  : option (json * string) :=
  if String.prefix word s
  then Some (v, PyStr.slice_from (String.length word) s)
  else None.

Fixpoint value (fuel : nat) (s : string) : option (json * string) :=
  match fuel with
  | O => None
  | S f =>
      match skip_ws s with
      | EmptyString => None
      | String c r as s' =>
          if Ascii.eqb c "n" then literal "null" JNull s'
          else if Ascii.eqb c "t" then literal "true" (JBool true) s'
          else if Ascii.eqb c "f" then literal "false" (JBool false) s'
          else if Ascii.eqb c dquote then
            match chars_until_quote r with
            | Some (t, rest) => Some (JStr t, rest)
            | None => None
            end
          else if Ascii.eqb c "[" then
            match skip_ws r with
            | String d r' =>
                if Ascii.eqb d "]" then Some (JArr [], r')
                else elements (String.length s) (value f) r []
            | EmptyString => None
            end
          else if Ascii.eqb c "{" then
            match skip_ws r with
            | String d r' =>
                if Ascii.eqb d "}" then Some (JObj [], r')
                else members (String.length s) (value f) r []
            | EmptyString => None
            end
          else if Ascii.eqb c "-" then
            match natural r with
            | Some (z, rest) => Some (JInt (- z), rest)
            | None => None
            end
          else
            match natural s' with
            | Some (z, rest) => Some (JInt z, rest)
            | None => None
            end
      end
  end.

Definition loads (s : string) : option json :=
  match value (S (String.length s)) s with
  | Some (v, r) =>
      match skip_ws r with
      | EmptyString => Some v
      | _ => None
      end
  | None => None
  end.

End Lib.

(** The freshly constructed object of [SiriusXM.__init__]. *)
Definition fresh : State := mkState ∅ ∅ JNull [].

(** The upstream calls of a run, in order. *)
Definition calls (h : list event) : list (callsite * string) :=
  omap (fun e => match e with
                 | EHttp rq _ => Some (rq_site rq, rq_url rq)
                 | ESend _ _ => None
                 end) h.

(** How many calls a history holds from one call site. *)
Definition issued (site : callsite) (h : list event) : nat :=
  length (filter (fun c => c.1 = site) (calls h)).

(** How many calls a history holds to one REST method. *)
Definition rest_calls (site : callsite) (method : string) (h : list event)
  : nat :=
  length (filter (fun c => c = (site, REST_FORMAT method)) (calls h)).

(** A scripted upstream: one answer per kind of call.  The REST answers
    are chosen by URL, the CDN answers by call site; the now-playing,
    variant and segment answers may depend on the history. *)
Module Upstream.

Record script : Type := mkScript {
  on_login : reply;
  on_resume : reply;
  on_channels : reply;
  on_now_playing : list event -> reply;
  on_master : reply;
  on_variant : list event -> reply;
  on_segment : list event -> reply;
  on_send : option exn
}.

Definition not_found : reply := mkReply 404 "" None [].

Definition serve (s : script) (h : list event) (rq : request) : reply :=
  match rq_site rq with
  | RestPost =>
      if String.eqb (rq_url rq) (REST_FORMAT "modify/authentication")
      then on_login s
      else if String.eqb (rq_url rq) (REST_FORMAT "resume?OAtrial=false")
      then on_resume s
      else if String.eqb (rq_url rq) (REST_FORMAT "get")
      then on_channels s
      else not_found
  | RestGet =>
      if String.eqb (rq_url rq) (REST_FORMAT "tune/now-playing-live")
      then on_now_playing s h
      else not_found
  | MasterGet => on_master s
  | VariantGet => on_variant s h
  | SegmentGet => on_segment s h
  end.

Definition env (s : script) : Env :=
  mkEnv Lib.unquote Lib.loads (serve s) (fun _ _ => on_send s).

Definition ok_json (j : json) (cs : list (string * option string)) : reply :=
  mkReply 200 "" (Some j) cs.

Definition ok_text (lines : list string) : reply :=
  mkReply 200 (PyStr.join (String nl "") lines) None [].

Definition status_only (code : Z) : reply := mkReply code "" None [].

Definition module_response (status : Z) (rest : list (string * json))
  : json :=
  JObj [("ModuleListResponse", JObj (("status", JInt status) :: rest))].

Definition modules (module_response : list (string * json))
  : string * json :=
  ("moduleList",
   JObj [("modules", JArr [JObj [("moduleResponse", JObj module_response)]])]).

Definition messages (code : Z) (message : string) : string * json :=
  ("messages",
   JArr [JObj [("message", JStr message); ("code", JInt code)]]).

Definition purejazz : json :=
  JObj [("channelGuid", JStr "86d52e32-09bf-a02e-1b6b-077e0aa05200");
        ("channelId", JStr "purejazz");
        ("name", JStr "Real Jazz");
        ("siriusChannelNumber", JStr "67");
        ("isFavorite", JBool false)].

Definition catalog : json :=
  module_response 1
    [modules [("contentData",
               JObj [("channelListing",
                      JObj [("channels", JArr [purejazz])])])]].

Definition markers : json :=
  JArr [JObj [("markers",
               JArr [JObj [("episode",
                            JObj [("longTitle", JStr "Real Jazz")])]])];
        JObj []; JObj [];
        JObj [("markers",
               JArr [JObj [("cut",
                 JObj [("title", JStr "So What");
                       ("artists",
                        JArr [JObj [("name", JStr "Miles Davis")]])])]])]].

Definition master_template : string :=
  "%Live_Primary_HLS%/AAC_Data/purejazz/purejazz_variant_large_v3.m3u8".

Definition now_playing (code : Z) : json :=
  module_response 1
    [messages code "Successful request";
     modules [("liveChannelData",
               JObj [("hlsAudioInfos",
                      JArr [JObj [("size", JStr "SMALL");
                                  ("url", JStr "%Live_Primary_HLS%/s.m3u8")];
                            JObj [("size", JStr "LARGE");
                                  ("url", JStr master_template)]]);
                     ("markerLists", markers)])]].

Definition session_cookies : list (string * option string) :=
  [("AWSALB", Some "Lq1x"); ("JSESSIONID", Some "0A1B2C");
   ("SXMAKTOKEN", Some "token=d41d8cd9,expires=1700000000");
   ("SXMDATA", Some "%7B%22gupId%22%3A%22A1B2C3%22%7D")].

Definition master_text : list string :=
  ["#EXTM3U";
   "#EXT-X-STREAM-INF:BANDWIDTH=281600";
   "purejazz_256k_large_v3.m3u8";
   "#EXT-X-STREAM-INF:BANDWIDTH=70400";
   "purejazz_64k_large_v3.m3u8"].

Definition variant_text : list string :=
  ["#EXTM3U";
   "#EXT-X-KEY:METHOD=AES-128,URI=key/1";
   "#EXTINF:10,";
   "purejazz_256k_1_072668457299_00428171_v3.aac";
   "#EXTINF:10,";
   "purejazz_256k_1_072668467299_00428172_v3.aac"].

(** Every call succeeds. *)
Definition nominal : script :=
  {| on_login := ok_json (module_response 1 []) [("SXMAUTHNEW", Some "1")];
     on_resume := ok_json (module_response 1 []) session_cookies;
     on_channels := ok_json catalog [];
     on_now_playing := fun _ => ok_json (now_playing 100) [];
     on_master := ok_text master_text;
     on_variant := fun _ => ok_text variant_text;
     on_segment := fun _ => mkReply 200 "AAC-BYTES" None [];
     on_send := None |}.

(** Variations of a script, one field at a time. *)
Definition with_login (r : reply) (s : script) : script :=
  mkScript r (on_resume s) (on_channels s) (on_now_playing s) (on_master s)
           (on_variant s) (on_segment s) (on_send s).


Definition with_channels (r : reply) (s : script) : script :=
  mkScript (on_login s) (on_resume s) r (on_now_playing s) (on_master s)
           (on_variant s) (on_segment s) (on_send s).

Definition with_now_playing (r : list event -> reply) (s : script) : script :=
  mkScript (on_login s) (on_resume s) (on_channels s) r (on_master s)
           (on_variant s) (on_segment s) (on_send s).

Definition with_master (r : reply) (s : script) : script :=
  mkScript (on_login s) (on_resume s) (on_channels s) (on_now_playing s) r
           (on_variant s) (on_segment s) (on_send s).

Definition with_variant (r : list event -> reply) (s : script) : script :=
  mkScript (on_login s) (on_resume s) (on_channels s) (on_now_playing s)
           (on_master s) r (on_segment s) (on_send s).


Definition with_send (r : option exn) (s : script) : script :=
  mkScript (on_login s) (on_resume s) (on_channels s) (on_now_playing s)
           (on_master s) (on_variant s) (on_segment s) r.

(** A now-playing answer that serves streaming but has no marker lists. *)
Definition now_playing_without_markers : json :=
  module_response 1
    [messages 100 "Successful request";
     modules [("liveChannelData",
               JObj [("hlsAudioInfos",
                      JArr [JObj [("size", JStr "LARGE");
                                  ("url", JStr master_template)]])])]].

(** A jar as it is after a successful login and resume. *)
Definition warm_jar : gmap string string :=
  update_jar ∅ (("SXMAUTHNEW", Some "1") :: session_cookies).

Definition master_url : string :=
  LIVE_PRIMARY_HLS +:+ "/AAC_Data/purejazz/purejazz_variant_large_v3.m3u8".

Definition variant_url : string :=
  LIVE_PRIMARY_HLS +:+ "/AAC_Data/purejazz/purejazz_256k_large_v3.m3u8".

Definition guid : json := JStr "86d52e32-09bf-a02e-1b6b-077e0aa05200".

(** The object after one served playlist request, with [url] cached. *)
Definition warm (url : string) : State :=
  mkState warm_jar {[Py.KStr "purejazz" := Some url]} (JArr [purejazz]) [].

Definition forbidden : reply := status_only 403.




(** A nominal upstream with any song, any variant playlist body and any
    outcome of the telemetry message. *)
Definition song (title artist station : json) : json :=
  JArr [JObj [("markers",
               JArr [JObj [("episode", JObj [("longTitle", station)])]])];
        JObj []; JObj [];
        JObj [("markers",
               JArr [JObj [("cut",
                 JObj [("title", title);
                       ("artists", JArr [JObj [("name", artist)]])])]])]].

Definition now_playing_song (title artist station : json) : json :=
  module_response 1
    [messages 100 "Successful request";
     modules [("liveChannelData",
               JObj [("hlsAudioInfos",
                      JArr [JObj [("size", JStr "SMALL");
                                  ("url", JStr "%Live_Primary_HLS%/s.m3u8")];
                            JObj [("size", JStr "LARGE");
                                  ("url", JStr master_template)]]);
                     ("markerLists", song title artist station)])]].

Definition served (title artist station : json) (variant_body : string)
  (sent : option exn) : script :=
  with_now_playing
    (fun _ => ok_json (now_playing_song title artist station) [])
    (with_variant (fun _ => mkReply 200 variant_body None [])
       (with_send sent nominal)).

(** The variant playlist is forbidden for good; everything else works. *)
Definition always_forbidden : script :=
  with_variant (fun _ => forbidden) nominal.

(** The object with a warm session, the catalog loaded, and any cache
    and history. *)
Definition running (cache : gmap Py.key (option string)) (h : list event)
  : State :=
  mkState warm_jar cache (JArr [purejazz]) h.

(** The cache once the variant URL of the channel is known. *)
Definition resolved : gmap Py.key (option string) :=
  {[Py.KStr "purejazz" := Some variant_url]}.

(** What one activation of [get_playlist] with the cache off adds to the
    history under [always_forbidden]: two now-playing calls, one
    telemetry message, the master fetch and the forbidden variant
    fetch. *)
Definition forbidden_round : list event :=
  log (get_playlist (env always_forbidden) 1 "purejazz" false
         (running ∅ [])).2.

(** What the first activation adds on a cold start. *)
Definition cold_round : list event :=
  log (get_playlist (env always_forbidden) 1 "purejazz" true fresh).2.

End Upstream.

(** * The keypad controller [mpad.py]

    The controller keeps one global, [volume], and acts on the world by
    running commands; a key press is modelled as the new volume together
    with the commands it runs, in order. *)

Module Mpad.

(** The keys of the matrix keypad: the digits and the two names. *)
Inductive key : Type :=
| Num (n : Z)
| Name (s : string).

Inductive command : Type :=
| Amixer (percent : Z)        (* amixer sset PCM <percent>% *)
| KillVLC                     (* killall vlc *)
| Cvlc (args : list string)   (* cvlc <args> *)
| Espeak (statement : string)
| Aplay.

Definition constrain (val min_val max_val : Z) : Z :=
  Z.min max_val (Z.max min_val val).

Definition setvolume (volume : Z) : list command :=
  [Amixer (constrain volume 0 100)].

Definition killVLC : list command := [KillVLC].

Definition SiriusPlay (channel : string) : list command :=
  killVLC ++ [Cvlc ["http://127.0.0.1:8888/" +:+ channel +:+ ".m3u8"]].

Definition playClassical : list command :=
  killVLC ++ [Cvlc ["http://audio-ogg.ibiblio.org:8000/wcpe.ogg.m3u"]].

Definition playLocal : list command :=
  killVLC ++ [Cvlc ["-Z"; "/mnt/bespin/Shared Music/Rozenn"]].

Definition speak (statement : string) : list command :=
  [Espeak statement; Aplay].

(** [process_keypress(key)]: the new value of the global [volume] and
    the commands run. *)
Definition process_keypress (k : key) (volume : Z) : Z * list command :=
  match k with
  | Name "vup" =>
      let v := constrain (volume + 5) 0 100 in (v, setvolume v)
  | Name "vdown" =>
      let v := constrain (volume - 5) 0 100 in (v, setvolume v)
  | Num 0 => (volume, killVLC ++ setvolume 75)
  | Num 1 => (volume, playLocal)
  | Num 2 => (volume, SiriusPlay "9443")
  | Num 3 => (volume, SiriusPlay "9432")
  | Num 4 => (volume, SiriusPlay "9344")
  | Num 5 => (volume, SiriusPlay "9489")
  | Num 6 => (volume, SiriusPlay "9484")
  | Num 7 => (volume, playClassical)
  | Num 8 => (volume, SiriusPlay "symphonyhall")
  | Num 9 => (volume, SiriusPlay "purejazz")
  | _ => (volume, speak "I do not understand.")
  end.

(** The main loop on a sequence of pressed keys, after the start-up
    [volume = 75; setvolume(volume)]. *)
Fixpoint presses (ks : list key) (volume : Z) : Z * list command :=
  match ks with
  | [] => (volume, [])
  | k :: rest =>
      let '(v, cs) := process_keypress k volume in
      let '(v', cs') := presses rest v in
      (v', cs ++ cs')
  end.

Definition main (ks : list key) : Z * list command :=
  let '(v, cs) := presses ks 75 in (v, setvolume 75 ++ cs).

End Mpad.

(** ** Vocabulary of the statements *)

(** Every run of [m] relates the state before to the state after. *)
Definition preserves (R : State -> State -> Prop) {A} (m : M A) : Prop :=
  forall st r st', m st = (r, st') -> R st st'.

(** The last character of a text. *)
Fixpoint last_char (s : string) : option ascii :=
  match s with
  | EmptyString => None
  | String c EmptyString => Some c
  | String _ r => last_char r
  end.

(** A line of the master playlist that names a variant playlist. *)
Definition variant_line (x : string) : bool :=
  PyStr.endswith (PyStr.rstrip x) ".m3u8".

(** A catalog record as the listing delivers it: an object whose name,
    if present, is a string, whose channelId is a string, and which has
    a channelGuid. *)
Definition record_ok (x : json) : bool :=
  match x with
  | JObj items =>
      match Py.assoc "name" items with
      | None | Some (JStr _) => true
      | _ => false
      end
      && match Py.assoc "channelId" items with
         | Some (JStr _) => true
         | _ => false
         end
      && match Py.assoc "channelGuid" items with
         | Some _ => true
         | None => false
         end
  | _ => false
  end.

(** The test of [get_channel] on one record, for a record that is
    [record_ok]. *)
Definition record_matches (name : string) (x : json) : bool :=
  match x with
  | JObj items =>
      match Py.assoc "name" items with
      | Some (JStr n) => String.eqb (PyStr.lower n) name
      | _ => String.eqb "" name
      end
      || match Py.assoc "channelId" items with
         | Some (JStr c) => String.eqb (PyStr.lower c) name
         | _ => false
         end
      || match Py.assoc "siriusChannelNumber" items with
         | Some num => Py.eq_str num name
         | None => false
         end
  | _ => false
  end.

(** No call from the site [s] between two states. *)
Definition quiet (s : callsite) (st st' : State) : Prop :=
  issued s (log st') = issued s (log st).


Fixpoint contains (c : ascii) (s : string) : bool :=
  match s with
  | EmptyString => false
  | String a r => Ascii.eqb a c || contains c r
  end.

(** What the rewriting loop does to one line. *)
Definition rewrite1 (base_path l : string) : string :=
  if PyStr.endswith (PyStr.rstrip l) ".aac" then base_path +:+ "/" +:+ l
  else l.

(** At most [k] calls from the site [s] between two states. *)
Definition within (s : callsite) (k : nat) (st st' : State) : Prop :=
  issued s (log st') <= issued s (log st) + k.

(** The catalog and the playlist cache are the same in two states. *)
Definition same_data (st st' : State) : Prop :=
  playlists st' = playlists st /\ channels st' = channels st.

(** The telemetry messages of a run, in order. *)
Definition telemetry (h : list event) : list json :=
  omap (fun e => match e with
                 | ESend p _ => Some p
                 | EHttp _ _ => None
                 end) h.

(** No telemetry between two states. *)
Definition silent (st st' : State) : Prop :=
  telemetry (log st') = telemetry (log st).

(** Every exception that escapes [m] is of one of the [classes]. *)
Definition raises_within {A} (classes : list exn) (m : M A) : Prop :=
  forall st e st', m st = (Raise e, st') -> e ∈ classes.

(** * Properties *)

(** ** Sanity checks of the model *)

Example split_maxsplit :
  PyStr.split "/" (Some 2) "AAC_Data/purejazz/HLS/x/y.aac"
  = ["AAC_Data"; "purejazz"; "HLS/x/y.aac"]
  /\ PyStr.split "=" (Some 1) "abc" = ["abc"]
  /\ PyStr.split "," None "a,,b," = ["a"; ""; "b"; ""].
Proof. repeat split; reflexivity. Qed.

Example rsplit1_examples :
  PyStr.rsplit1 "/" "https://h/a/b.m3u8" = ["https://h/a"; "b.m3u8"]
  /\ PyStr.rsplit1 "/" "abc" = ["abc"]
  /\ PyStr.rsplit1 "/" "a/" = ["a"; ""].
Proof. repeat split; reflexivity. Qed.

Example string_examples :
  PyStr.rstrip "seg.aac  " = "seg.aac"
  /\ PyStr.endswith "seg.aac" ".aac" = true
  /\ PyStr.endswith "aac" ".aac" = false
  /\ PyStr.slice_from 8 "https://host/a" = "host/a"
  /\ PyStr.drop_last 5 "purejazz.m3u8" = "purejazz"
  /\ PyStr.lower "PureJazz 67" = "purejazz 67"
  /\ PyStr.replace "%L%" "https://cdn" "%L%/a/%L%b" = "https://cdn/a/https://cdnb"
  /\ PyStr.join "," ["a"; "b"; "c"] = "a,b,c".
Proof. repeat split; reflexivity. Qed.

Example getitem_examples :
  Py.getitem (JObj [("a", JInt 1)]) "a" = Ret (JInt 1)
  /\ Py.getitem (JObj [("a", JInt 1)]) "b" = Raise KeyError
  /\ Py.getitem (JArr [JInt 1]) "a" = Raise TypeError
  /\ Py.getitem (JInt 5) "gupId" = Raise TypeError
  /\ Py.getindex (JArr [JInt 1; JInt 2]) (-1) = Ret (JInt 2)
  /\ Py.getindex (JArr []) 0 = Raise IndexError
  /\ Py.getindex (JArr [JInt 1]) (-2) = Raise IndexError
  /\ Py.dict_get JNull "name" (JStr "") = Raise AttributeError.
Proof. repeat split; reflexivity. Qed.

Example unquote_example :
  Lib.unquote "%7B%22gupId%22%3A%20%22g-1%22%7D" =
  String "{" (String Lib.dquote ("gupId" +:+ String Lib.dquote
    (": " +:+ String Lib.dquote ("g-1" +:+ String Lib.dquote "}"))))
  /\ Lib.unquote "100%" = "100%" /\ Lib.unquote "%zz%41" = "%zzA".
Proof. repeat split; reflexivity. Qed.

Example loads_examples :
  Lib.loads (Lib.unquote "%7B%22gupId%22%3A%20%22g-1%22%2C%22n%22%3A[1,-2,%7B%7D,null]%7D")
  = Some (JObj [("gupId", JStr "g-1");
                ("n", JArr [JInt 1; JInt (-2); JObj []; JNull])])
  /\ Lib.loads "5" = Some (JInt 5)
  /\ Lib.loads " [ ] " = Some (JArr [])
  /\ Lib.loads "01" = None
  /\ Lib.loads "tru" = None
  /\ Lib.loads "" = None
  /\ Lib.loads "[1,]" = None
  /\ Lib.loads (Lib.unquote "%7B%22a%22:1,%22a%22:2%7D") = Some (JObj [("a", JInt 2)]).
Proof. repeat split; vm_compute; reflexivity. Qed.
(** ** Reasoning about the monad *)

Lemma bind_ret_inv {A B} (m : M A) (k : A -> M B) st b st' :
  bind m k st = (Ret b, st') ->
  exists a s1, m st = (Ret a, s1) /\ k a s1 = (Ret b, st').
Proof.
  unfold bind. destruct (m st) as [[a|e] s1]; [eauto|done].
Qed.

Lemma bind_inv {A B} (m : M A) (k : A -> M B) st r st' :
  bind m k st = (r, st') ->
  (exists a s1, m st = (Ret a, s1) /\ k a s1 = (r, st'))
  \/ (exists e, m st = (Raise e, st') /\ r = Raise e).
Proof.
  unfold bind. destruct (m st) as [[a|e] s1]; [eauto|].
  intros ?; simplify_eq; eauto.
Qed.

Lemma bind_ret_step {A B} (m : M A) (k : A -> M B) st a s1 :
  m st = (Ret a, s1) -> bind m k st = k a s1.
Proof. unfold bind. by intros ->. Qed.

Lemma bind_raise_step {A B} (m : M A) (k : A -> M B) st e s1 :
  m st = (Raise e, s1) -> bind m k st = (Raise e, s1).
Proof. unfold bind. by intros ->. Qed.

Lemma try_except_ret_inv {A} (body handler : M A) classes st b st' :
  try_except body classes handler st = (Ret b, st') ->
  body st = (Ret b, st')
  \/ exists e s1, body st = (Raise e, s1) /\ e ∈ classes
                  /\ handler s1 = (Ret b, st').
Proof.
  unfold try_except. destruct (body st) as [[a|e] s1]; [eauto|].
  case_bool_decide; [eauto 6|done].
Qed.

Lemma try_except_ret_step {A} (body handler : M A) classes st a s1 :
  body st = (Ret a, s1) -> try_except body classes handler st = (Ret a, s1).
Proof. unfold try_except. by intros ->. Qed.

Lemma try_except_caught {A} (body handler : M A) classes st e s1 :
  body st = (Raise e, s1) -> e ∈ classes ->
  try_except body classes handler st = handler s1.
Proof. unfold try_except. intros -> ?. by rewrite bool_decide_eq_true_2. Qed.

Lemma try_except_uncaught {A} (body handler : M A) classes st e s1 :
  body st = (Raise e, s1) -> e ∉ classes ->
  try_except body classes handler st = (Raise e, s1).
Proof. unfold try_except. intros -> ?. by rewrite bool_decide_eq_false_2. Qed.

(** ** Strings *)

Lemma app_cons c s t : String c s +:+ t = String c (s +:+ t).
Proof. reflexivity. Qed.

Lemma app_nil_l s : EmptyString +:+ s = s.
Proof. reflexivity. Qed.

Lemma rsplit1_absent sep s :
  contains sep s = false -> PyStr.rsplit1 sep s = [s].
Proof.
  induction s as [|c s IH]; simpl; [done|].
  intros [Hc Hs]%orb_false_iff. rewrite (IH Hs), Hc. done.
Qed.

Lemma rsplit1_last sep p f :
  contains sep f = false ->
  PyStr.rsplit1 sep (p +:+ String sep f) = [p; f].
Proof.
  intros Hf. induction p as [|c p IH].
  - rewrite app_nil_l. simpl. rewrite (rsplit1_absent _ _ Hf).
    rewrite Ascii.eqb_refl. by destruct f.
  - rewrite app_cons. simpl. by rewrite IH.
Qed.

Lemma split_exhausted sep s : PyStr.split sep (Some 0) s = [s].
Proof.
  induction s as [|c s IH]; simpl; [done|].
  rewrite andb_false_r. by rewrite IH.
Qed.

Lemma split_first sep h r :
  contains sep h = false ->
  PyStr.split sep (Some 1) (h +:+ String sep r) = [h; r].
Proof.
  induction h as [|c h IH]; intros Hh.
  - rewrite app_nil_l. simpl. rewrite Ascii.eqb_refl. simpl.
    by rewrite split_exhausted.
  - simpl in Hh. apply orb_false_iff in Hh as [Hc Hs].
    rewrite app_cons. simpl. rewrite Hc. simpl. by rewrite (IH Hs).
Qed.

Lemma rewrite_lines_from base_path (seen rest : list string) :
  foldl (rewrite_line base_path) (seen ++ rest)
        (seq (length seen) (length rest))
  = seen ++ (rewrite1 base_path <$> rest).
Proof.
  revert seen. induction rest as [|l rest IH]; intros seen; [done|].
  simpl. unfold rewrite_line at 2. rewrite list_lookup_middle by done.
  assert (Hstep :
    (if PyStr.endswith (PyStr.rstrip l) ".aac"
     then <[length seen := base_path +:+ "/" +:+ l]> (seen ++ l :: rest)
     else seen ++ l :: rest)
    = (seen ++ [rewrite1 base_path l]) ++ rest).
  { unfold rewrite1. destruct (PyStr.endswith _ _).
    - rewrite insert_app_r_alt by lia. rewrite Nat.sub_diag. simpl.
      by rewrite <- app_assoc.
    - by rewrite <- app_assoc. }
  rewrite Hstep.
  replace (S (length seen)) with (length (seen ++ [rewrite1 base_path l]))
    by (rewrite length_app; simpl; lia).
  rewrite IH. by rewrite <- app_assoc.
Qed.

Lemma rewrite_lines_map base_path lines :
  rewrite_lines base_path lines = rewrite1 base_path <$> lines.
Proof. apply (rewrite_lines_from base_path []). Qed.

Lemma app_assoc_s (s t u : string) : (s +:+ t) +:+ u = s +:+ t +:+ u.
Proof. induction s as [|c s IH]; [done|]. rewrite !app_cons. by rewrite IH. Qed.

Lemma slice_from_app p s : PyStr.slice_from (String.length p) (p +:+ s) = s.
Proof. induction p as [|c p IH]; [by destruct s|]. by rewrite app_cons. Qed.

Lemma prefix_slash_app d s :
  d <> EmptyString -> String.prefix "/" d = false ->
  String.prefix "/" (d +:+ s) = false.
Proof.
  destruct d as [|c d]; [done|]. intros _. rewrite app_cons.
  unfold String.prefix. destruct (ascii_dec "/" c); [by destruct d|done].
Qed.

(** ** The playlist rewriter (claim C5) *)

(** C5, as the code has it: for a variant URL of the shape
    https://HOST/DIR/FILE, where HOST and FILE contain no slash, the
    rewriter takes DIR as the base path, replaces every line that ends in
    .aac once its trailing white space is stripped by DIR/line, and
    leaves every other line as it is; when DIR is not empty and does not
    begin with a slash, no rewritten segment line begins with one. *)
Theorem rewrite_playlist_base_path (host dir file text : string) :
  contains "/" host = false ->
  contains "/" file = false ->
  rewrite_playlist ("https://" +:+ host +:+ "/" +:+ dir +:+ "/" +:+ file) text
  = Ret (PyStr.join (String nl "")
           (rewrite1 dir <$> PyStr.split nl None text))
  /\ (forall l, PyStr.endswith (PyStr.rstrip l) ".aac" = true ->
        rewrite1 dir l = dir +:+ "/" +:+ l
        /\ (dir <> EmptyString -> String.prefix "/" dir = false ->
            String.prefix "/" (rewrite1 dir l) = false))
  /\ (forall l, PyStr.endswith (PyStr.rstrip l) ".aac" = false ->
        rewrite1 dir l = l).
Proof.
  intros Hhost Hfile. split; [|split].
  - unfold rewrite_playlist.
    replace ("https://" +:+ host +:+ "/" +:+ dir +:+ "/" +:+ file)
      with (("https://" +:+ host +:+ "/" +:+ dir) +:+ String "/" file)
      by (by rewrite !app_assoc_s).
    rewrite (rsplit1_last _ _ _ Hfile). cbn [Py.seq_index obind].
    change (Py.seq_index ["https://" +:+ host +:+ "/" +:+ dir; file] 0)
      with (Ret (A:=string) ("https://" +:+ host +:+ "/" +:+ dir)).
    cbn [obind].
    rewrite (slice_from_app "https://").
    change ("/" +:+ dir) with (String "/" dir).
    rewrite (split_first _ _ _ Hhost).
    change (Py.seq_index [host; dir] 1) with (Ret (A:=string) dir).
    cbn [obind]. by rewrite rewrite_lines_map.
  - intros l Hl. unfold rewrite1. rewrite Hl. split; [done|].
    intros Hne Hpre. by apply prefix_slash_app.
  - intros l Hl. unfold rewrite1. by rewrite Hl.
Qed.

Lemma rewrite_playlist_base_path_witness :
  rewrite_playlist
    ("https://" +:+ "siriusxm-priprodlive.akamaized.net" +:+ "/" +:+
     "AAC_Data/purejazz" +:+ "/" +:+ "purejazz_256k_large_v3.m3u8")
    "#EXTM3U"
  = Ret (PyStr.join (String nl "")
           (rewrite1 "AAC_Data/purejazz" <$> PyStr.split nl None "#EXTM3U")).
Proof.
  apply (rewrite_playlist_base_path
           "siriusxm-priprodlive.akamaized.net" "AAC_Data/purejazz"
           "purejazz_256k_large_v3.m3u8" "#EXTM3U"); reflexivity.
Defined.

(** C5 as stated fails: a variant URL directly under the host makes the
    rewriter raise, a doubled slash after the host gives a base path that
    begins with a slash, and a line ending in .aac followed by a carriage
    return is rewritten too. *)
Lemma rewrite_playlist_not_every_url :
  rewrite_playlist "https://cdn.example/v.m3u8" "s1.aac" = Raise IndexError
  /\ rewrite_playlist "https://cdn.example//ch/v.m3u8" "s1.aac"
     = Ret "/ch/s1.aac"
  /\ rewrite_playlist "https://cdn.example/ch/v.m3u8"
       (String "s" (String "." (String "a" (String "a" (String "c"
          (String (ascii_of_nat 13) EmptyString))))))
     = Ret ("ch/s.aac" +:+ String (ascii_of_nat 13) EmptyString).
Proof. repeat split; vm_compute; reflexivity. Qed.

(** ** The cookie accessors (claim C8) *)

Lemma seq_index_raises {A} (l : list A) i e :
  Py.seq_index l i = Raise e -> e = IndexError.
Proof.
  unfold Py.seq_index. repeat case_match; congruence.
Qed.

(** X20.  On a jar that holds at most one cookie of each name,
    [get_sxmak_token] never raises and never touches the object,
    whatever the value of the cookie: it returns a string or [None]. *)
Lemma get_sxmak_token_total (st : State) :
  exists v, get_sxmak_token st = (Ret v, st)
            /\ (v = JNull \/ exists s, v = JStr s).
Proof.
  unfold get_sxmak_token, try_except, bind, cookie, lift, ret.
  destruct (cookies st !! "SXMAKTOKEN") as [v|]; simpl; [|by eauto].
  destruct (Py.seq_index (PyStr.split "=" (Some 1) v) 1) as [a|e] eqn:Ha;
    simpl.
  - destruct (Py.seq_index (PyStr.split "," (Some 1) a) 0) as [b|e] eqn:Hb;
      simpl; [by eauto|].
    apply seq_index_raises in Hb as ->. simpl. by eauto.
  - apply seq_index_raises in Ha as ->. simpl. by eauto.
Qed.

(** [get_gup_id] returns, unless the decoded cookie is JSON that is not
    an object: then the subscript raises [TypeError], which the handler
    for [KeyError] and [ValueError] lets through. *)
Lemma get_gup_id_cases (E : Env) (st : State) :
  get_gup_id E st =
  (match cookies st !! "SXMDATA" with
   | None => Ret JNull
   | Some v =>
       match json_loads E (unquote E v) with
       | None => Ret JNull
       | Some (JObj items) =>
           Ret (match Py.assoc "gupId" items with
                | Some g => g
                | None => JNull
                end)
       | Some _ => Raise TypeError
       end
   end, st).
Proof.
  unfold get_gup_id, try_except, bind, cookie, lift, ret.
  destruct (cookies st !! "SXMDATA") as [v|]; simpl; [|done].
  destruct (json_loads E (unquote E v)) as [j|]; simpl; [|done].
  destruct j; simpl; try done.
  by destruct (Py.assoc "gupId" items).
Qed.

(** C8 at the failing input: with the cookie SXMDATA=5 the accessor
    [get_gup_id] raises [TypeError] instead of returning [None]. *)
Theorem get_gup_id_raises_on_scalar :
  get_gup_id (Upstream.env Upstream.nominal)
    (mkState {["SXMDATA" := "5"]} ∅ JNull [])
  = (Raise TypeError, mkState {["SXMDATA" := "5"]} ∅ JNull []).
Proof. rewrite get_gup_id_cases. vm_compute. reflexivity. Qed.

(** ** The session manager (claim C1) *)

Lemma send_log (E : Env) site method st r st' :
  send E site method st = (r, st') ->
  exists rp,
    log st' = log st ++ [EHttp (mkRequest site (REST_FORMAT method) []) rp]
    /\ cookies st' = update_jar (cookies st) (set_cookies rp)
    /\ (forall j, r = Ret j -> Py.truthy j = true -> status_code rp = 200%Z).
Proof.
  unfold send, bind, session_request, try_except, lift, ret.
  replace (url_sendable (REST_FORMAT method)) with true by done.
  intros H. eexists. simpl in H.
  destruct (negb _) eqn:Hs.
  - simplify_eq. simpl. repeat split. intros j ? Hj. by simplify_eq.
  - apply negb_false_iff, Z.eqb_eq in Hs.
    destruct (res_json _) as [j|e]; [|destruct (bool_decide _)];
      simplify_eq; simpl; repeat split; done.
Qed.




(** ** The channel catalog (claim C6) *)

(** When the listing cannot be fetched, [get_channels] returns the pair
    [(None, None)]; iterating it calls [.get] on [None]. *)
Lemma get_channel_without_catalog (E : Env) name st st' :
  get_channels E st = (Ret (JArr [JNull; JNull]), st') ->
  get_channel E name st = (Raise AttributeError, st').
Proof.
  intros H. unfold get_channel. by rewrite (bind_ret_step _ _ _ _ _ H).
Qed.

(** C6 at the failing input: the channel-listing POST is answered with
    HTTP 500 and the resolution raises [AttributeError] instead of
    returning [(None, None)]. *)
Theorem get_channel_raises_without_catalog :
  (get_channel
     (Upstream.env
        (Upstream.with_channels (Upstream.status_only 500) Upstream.nominal))
     "purejazz" fresh).1
  = Raise AttributeError.
Proof. vm_compute. reflexivity. Qed.

(** ** The telemetry sink (claim C7) *)

(** C7 at the failing inputs: a now-playing answer without marker lists,
    or an exception of the feed client other than [RequestError], makes
    the playlist request raise, although the same upstream serves the
    playlist when the sink works. *)
Theorem get_playlist_fails_with_sink :
  (get_playlist
     (Upstream.env
        (Upstream.with_now_playing
           (fun _ => Upstream.ok_json Upstream.now_playing_without_markers [])
           Upstream.nominal))
     10 "purejazz" true fresh).1
  = Raise KeyError
  /\ (get_playlist
        (Upstream.env (Upstream.with_send (Some SinkFailure) Upstream.nominal))
        10 "purejazz" true fresh).1
     = Raise SinkFailure
  /\ (exists text,
        (get_playlist
           (Upstream.env
              (Upstream.with_send (Some RequestError) Upstream.nominal))
           10 "purejazz" true fresh).1
        = Ret (Some text)).
Proof.
  split; [|split]; [vm_compute; reflexivity..|].
  eexists. vm_compute. reflexivity.
Qed.

(** ** Totality of [get_playlist] (claim C10) *)

(** C10 at the failing input: the channel resolves, the now-playing call
    is answered with HTTP 500, [get_playlist_url] returns [None], and
    [get_playlist] raises on the [None] URL instead of returning an
    error value; so does the handler. *)
Theorem get_playlist_raises_without_url :
  let E := Upstream.env
             (Upstream.with_now_playing (fun _ => Upstream.status_only 500)
                Upstream.nominal) in
  (get_playlist E 10 "purejazz" true fresh).1 = Raise InvalidURL
  /\ (do_GET E 10 "/purejazz.m3u8" fresh).1 = Raise InvalidURL.
Proof. split; vm_compute; reflexivity. Qed.

(** ** The 403 path of [get_playlist] (claim C3) *)


(** [get_playlist] once the channel is resolved, the URL obtained and
    the variant fetched: what is left is the dispatch on the status. *)
Lemma get_playlist_dispatch (E : Env) (d : nat) (name : string)
  (use_cache : bool) (st s1 s2 s3 : State) (guid channel_id token gup_id : json)
  (url : option string) (res : reply) :
  get_channel E name st = (Ret (guid, channel_id), s1) ->
  Py.truthy guid = true ->
  Py.truthy channel_id = true ->
  get_playlist_url E guid channel_id use_cache 5 s1 = (Ret url, s2) ->
  get_sxmak_token s2 = (Ret token, s2) ->
  get_gup_id E s2 = (Ret gup_id, s2) ->
  session_get E VariantGet url (cdn_params token gup_id) s2 = (Ret res, s3) ->
  get_playlist E (S d) name use_cache st =
  (if (status_code res =? 403)%Z then get_playlist E d name false
   else if negb (status_code res =? 200)%Z then ret None
   else u <- lift (match url with
                   | Some u => Ret u
                   | None => Raise AttributeError
                   end) ;;
        text <- lift (rewrite_playlist u (body res)) ;;
        ret (Some text)) s3.
Proof.
  intros Hch Hg Hc Hurl Htok Hgup Hget.
  cbn [get_playlist]. rewrite (bind_ret_step _ _ _ _ _ Hch).
  cbn [fst snd]. rewrite Hg, Hc. cbn [negb orb].
  rewrite (bind_ret_step _ _ _ _ _ Hurl).
  rewrite (bind_ret_step _ _ _ _ _ Htok).
  rewrite (bind_ret_step _ _ _ _ _ Hgup).
  by rewrite (bind_ret_step _ _ _ _ _ Hget).
Qed.




(** ** Relations that every step of a method preserves *)

Section Preserved.

Context {R : State -> State -> Prop} `{!Reflexive R} `{!Transitive R}.

Lemma preserves_ret {A} (a : A) : preserves R (ret a).
Proof. intros st r st' [= <- <-]. reflexivity. Qed.

Lemma preserves_raise {A} e : preserves R (raise (A:=A) e).
Proof. intros st r st' [= <- <-]. reflexivity. Qed.

Lemma preserves_lift {A} (o : outcome A) : preserves R (lift o).
Proof. intros st r st' [= <- <-]. reflexivity. Qed.

Lemma preserves_read {A} (f : State -> outcome A) :
  preserves R (fun st => (f st, st)).
Proof. intros st r st' [= <- <-]. reflexivity. Qed.

Lemma preserves_bind {A B} (m : M A) (k : A -> M B) :
  preserves R m -> (forall a, preserves R (k a)) -> preserves R (bind m k).
Proof.
  intros Hm Hk st r st' H.
  apply bind_inv in H as [(a & s1 & H1 & H2)|(e & H1 & _)].
  - etrans; [by eapply Hm|by eapply Hk].
  - by eapply Hm.
Qed.

Lemma preserves_try_except {A} (body handler : M A) classes :
  preserves R body -> preserves R handler ->
  preserves R (try_except body classes handler).
Proof.
  intros Hb Hh st r st'. unfold try_except.
  destruct (body st) as [[a|e] s1] eqn:H1.
  - intros [= <- <-]. by eapply Hb.
  - case_bool_decide.
    + intros H2. etrans; [by eapply Hb|by eapply Hh].
    + intros [= <- <-]. by eapply Hb.
Qed.

End Preserved.

Ltac preserved_step :=
  first
    [ apply preserves_ret | apply preserves_raise | apply preserves_lift
    | apply preserves_read
    | apply preserves_bind; [|intros ?]
    | apply preserves_try_except
    | assumption ].

Ltac preserved :=
  repeat (preserved_step ||
          match goal with
          | |- preserves _ (if ?b then _ else _) => destruct b
          | |- preserves _ (match ?x with _ => _ end) => destruct x
          end).

(** ** Which method calls which site *)

Lemma issued_app s h1 h2 : issued s (h1 ++ h2) = issued s h1 + issued s h2.
Proof.
  unfold issued, calls. by rewrite omap_app, filter_app, length_app.
Qed.

Lemma issued_http s rq rp h :
  issued s (h ++ [EHttp rq rp])
  = issued s h + (if decide (rq_site rq = s) then 1 else 0).
Proof.
  rewrite issued_app. f_equal. unfold issued. simpl.
  rewrite filter_cons. simpl. by destruct (decide (rq_site rq = s)).
Qed.

Lemma issued_send s p r h : issued s (h ++ [ESend p r]) = issued s h.
Proof. rewrite issued_app. unfold issued. simpl. lia. Qed.

Global Instance quiet_refl s : Reflexive (quiet s).
Proof. by intros st. Qed.

Global Instance quiet_trans s : Transitive (quiet s).
Proof. unfold quiet. intros a b c H1 H2. congruence. Qed.

Create HintDb quiet.

Section Quiet.

Variable E : Env.
Variable s : callsite.

Lemma quiet_session_request site u ps :
  site <> s -> preserves (quiet s) (session_request E site u ps).
Proof.
  intros Hs st r st'. unfold session_request, quiet.
  destruct (url_sendable u); intros [= <- <-]; [|done]. simpl.
  rewrite issued_http. simpl. rewrite decide_False by done. lia.
Qed.

Lemma quiet_session_get site u ps :
  site <> s -> preserves (quiet s) (session_get E site u ps).
Proof.
  intros Hs. destruct u; simpl; [by apply quiet_session_request|].
  apply preserves_raise.
Qed.

Lemma quiet_aio_send_data p : preserves (quiet s) (aio_send_data E p).
Proof.
  intros st r st'. unfold aio_send_data, quiet. intros [= <- <-]. simpl.
  by rewrite issued_send.
Qed.

Lemma quiet_set_channels c : preserves (quiet s) (set_channels c).
Proof. by intros st r st' [= <- <-]. Qed.

Lemma quiet_store_playlist k v : preserves (quiet s) (store_playlist k v).
Proof. by intros st r st' [= <- <-]. Qed.

Hint Resolve quiet_session_request quiet_session_get quiet_aio_send_data
  quiet_set_channels quiet_store_playlist : quiet.

Ltac quiet := repeat (solve [auto 3 with quiet] || preserved_step ||
  match goal with
  | |- preserves _ (if ?b then _ else _) => destruct b
  | |- preserves _ (match ?x with _ => _ end) => destruct x
  end).

Lemma quiet_get_sxmak_token : preserves (quiet s) get_sxmak_token.
Proof. unfold get_sxmak_token, cookie. quiet. Qed.

Lemma quiet_get_gup_id : preserves (quiet s) (get_gup_id E).
Proof. unfold get_gup_id, cookie. quiet. Qed.

Hint Resolve quiet_get_sxmak_token quiet_get_gup_id : quiet.

Hypothesis not_get : RestGet <> s.
Hypothesis not_post : RestPost <> s.
Hypothesis not_master : MasterGet <> s.

Lemma quiet_login : preserves (quiet s) (login E).
Proof. unfold login, send, is_logged_in. quiet. Qed.

Hint Resolve quiet_login : quiet.

Lemma quiet_authenticate : preserves (quiet s) (authenticate E).
Proof.
  unfold authenticate, send, is_logged_in, is_session_authenticated. quiet.
Qed.

Hint Resolve quiet_authenticate : quiet.

Lemma quiet_get method flag : preserves (quiet s) (get E method flag).
Proof. unfold get, guarded, send, is_session_authenticated. quiet. Qed.

Lemma quiet_post method flag : preserves (quiet s) (post E method flag).
Proof. unfold post, guarded, send, is_session_authenticated. quiet. Qed.

Hint Resolve quiet_get quiet_post : quiet.

Lemma quiet_get_song_info guid cid full :
  preserves (quiet s) (get_song_info E guid cid full).
Proof. unfold get_song_info. quiet. Qed.

Lemma quiet_get_playlist_variant_url url :
  preserves (quiet s) (get_playlist_variant_url E url).
Proof. unfold get_playlist_variant_url. quiet. Qed.

Hint Resolve quiet_get_song_info quiet_get_playlist_variant_url : quiet.

Lemma quiet_select_large cid infos :
  preserves (quiet s) (select_large E cid infos).
Proof. induction infos as [|info rest IH]; cbn [select_large]; quiet. Qed.

Hint Resolve quiet_select_large : quiet.

Lemma quiet_get_playlist_url guid cid use_cache n :
  preserves (quiet s) (get_playlist_url E guid cid use_cache n).
Proof. induction n as [|n IH]; cbn [get_playlist_url]; quiet. Qed.

Lemma quiet_get_channels : preserves (quiet s) (get_channels E).
Proof. unfold get_channels. quiet. Qed.

Hint Resolve quiet_get_playlist_url quiet_get_channels : quiet.

Lemma quiet_get_channel name : preserves (quiet s) (get_channel E name).
Proof. unfold get_channel. quiet. Qed.

Hint Resolve quiet_get_channel : quiet.

Hypothesis not_variant : VariantGet <> s.

Lemma quiet_get_playlist depth name use_cache :
  preserves (quiet s) (get_playlist E depth name use_cache).
Proof.
  revert name use_cache.
  induction depth as [|d IH]; intros name use_cache; cbn [get_playlist];
    quiet.
Qed.

End Quiet.

(** ** The segment fetcher (claim C4) *)

Lemma session_request_issued (E : Env) site u ps st r st' :
  session_request E site u ps st = (r, st') ->
  issued site (log st') <= issued site (log st) + 1.
Proof.
  unfold session_request. destruct (url_sendable u); intros [= <- <-]; [|lia].
  simpl. rewrite issued_http. simpl. rewrite decide_True by done. lia.
Qed.

(** The budget of [get_segment]: with [max_attempts] attempts left it
    fetches the segment at most [max_attempts + 1] times, however the
    upstream answers. *)
Lemma get_segment_budget (E : Env) (depth : nat) (path : string)
  (max_attempts : nat) (st st' : State) r :
  get_segment E depth path max_attempts st = (r, st') ->
  issued SegmentGet (log st') <= issued SegmentGet (log st) + S max_attempts.
Proof.
  revert st. induction max_attempts as [|m IH]; intros st H;
    cbn [get_segment] in H.
  all: apply bind_inv in H as [(tok & s1 & H1 & H)|(e & H1 & _)];
    apply (quiet_get_sxmak_token SegmentGet) in H1; unfold quiet in H1; [|lia].
  all: apply bind_inv in H as [(gup & s2 & H2 & H)|(e & H2 & _)];
    apply (quiet_get_gup_id E SegmentGet) in H2; unfold quiet in H2; [|lia].
  all: apply bind_inv in H as [(res & s3 & H3 & H)|(e & H3 & _)];
    apply session_request_issued in H3; [|lia].
  - destruct (status_code res =? 403)%Z; [|destruct (negb _)];
      unfold ret in H; simplify_eq; lia.
  - destruct (status_code res =? 403)%Z;
      [|destruct (negb _); unfold ret in H; simplify_eq; lia].
    apply bind_inv in H as [(ch & s4 & H4 & H)|(e & H4 & _)];
      unfold lift in H4; simplify_eq; [|lia].
    apply bind_inv in H as [(v & s5 & H5 & H)|(e & H5 & _)];
      apply (quiet_get_playlist E SegmentGet) in H5; try done;
      unfold quiet in H5; [|lia].
    apply IH in H. lia.
Qed.

(** A segment request of the handler starts with a budget of five. *)
Lemma do_GET_segment_budget (E : Env) (depth : nat) (path : string)
  (st st' : State) r :
  PyStr.endswith path ".m3u8" = false ->
  PyStr.endswith path ".aac" = true ->
  do_GET E depth path st = (r, st') ->
  issued SegmentGet (log st') <= issued SegmentGet (log st) + 6.
Proof.
  intros Hm Ha. unfold do_GET. rewrite Hm, Ha. intros H.
  apply bind_inv in H as [(v & s1 & H1 & H)|(e & H1 & _)];
    apply get_segment_budget in H1; [|lia].
  destruct v as [bytes|]; [destruct (negb _)|]; unfold ret in H;
    simplify_eq; lia.
Qed.




(** Under the hypotheses of [get_playlist_dispatch], the state on which
    the retry starts has exactly one more variant fetch. *)
Lemma variant_fetch_counted (E : Env) (name : string) (use_cache : bool)
  (st s1 s2 s3 : State) (guid channel_id token gup_id : json)
  (url : option string) (res : reply) :
  get_channel E name st = (Ret (guid, channel_id), s1) ->
  get_playlist_url E guid channel_id use_cache 5 s1 = (Ret url, s2) ->
  session_get E VariantGet url (cdn_params token gup_id) s2 = (Ret res, s3) ->
  issued VariantGet (log s3) = issued VariantGet (log st) + 1.
Proof.
  intros Hch Hurl Hget.
  apply (quiet_get_channel E VariantGet) in Hch; try done.
  apply (quiet_get_playlist_url E VariantGet) in Hurl; try done.
  unfold quiet in *. rewrite <- Hch, <- Hurl.
  destruct url as [u|]; [|done]. simpl in Hget. unfold session_request in Hget.
  destruct (url_sendable u); [|done]. simplify_eq. simpl.
  by rewrite issued_http.
Qed.

(** ** Unbounded recursion of [get_playlist] *)

Section Forbidden.

Import Upstream.

(** One activation under [always_forbidden], cache off, warm session. *)
Lemma forbidden_step d h :
  exists h',
    get_playlist (env always_forbidden) (S d) "purejazz" false
      (running resolved h)
    = get_playlist (env always_forbidden) d "purejazz" false
        (running resolved h')
    /\ issued VariantGet h' = issued VariantGet h + 1.
Proof.
  set (E := env always_forbidden).
  set (st := running resolved h).
  set (s2 := (get_playlist_url E guid (JStr "purejazz") false 5 st).2).
  set (s3 := (session_get E VariantGet (Some variant_url)
                (cdn_params (JStr "d41d8cd9") (JStr "A1B2C3")) s2).2).
  assert (Hch : get_channel E "purejazz" st
                = (Ret (guid, JStr "purejazz"), st))
    by (vm_compute; reflexivity).
  assert (Hurl : get_playlist_url E guid (JStr "purejazz") false 5 st
                 = (Ret (Some variant_url), s2))
    by (vm_compute; reflexivity).
  assert (Htok : get_sxmak_token s2 = (Ret (JStr "d41d8cd9"), s2))
    by (vm_compute; reflexivity).
  assert (Hgup : get_gup_id E s2 = (Ret (JStr "A1B2C3"), s2))
    by (vm_compute; reflexivity).
  assert (Hget : session_get E VariantGet (Some variant_url)
                   (cdn_params (JStr "d41d8cd9") (JStr "A1B2C3")) s2
                 = (Ret forbidden, s3))
    by (vm_compute; reflexivity).
  assert (Hs3 : s3 = running resolved (log s3))
    by (vm_compute; reflexivity).
  exists (log s3). split.
  - rewrite <- Hs3.
    by rewrite (get_playlist_dispatch E d "purejazz" false st st s2 s3
                  guid (JStr "purejazz") (JStr "d41d8cd9") (JStr "A1B2C3")
                  (Some variant_url) forbidden).
  - by apply (variant_fetch_counted E "purejazz" false st st s2 s3
                guid (JStr "purejazz") (JStr "d41d8cd9") (JStr "A1B2C3")
                (Some variant_url) forbidden).
Qed.

(** With the cache off and a warm session, [depth] nested activations
    fetch the variant [depth] times and end in [RecursionError]. *)
Lemma forbidden_recursion depth h :
  let run := get_playlist (env always_forbidden) depth "purejazz" false
               (running resolved h) in
  run.1 = Raise RecursionError
  /\ issued VariantGet (log run.2) = issued VariantGet h + depth.
Proof.
  revert h. induction depth as [|d IH]; intros h.
  - simpl. split; [done|lia].
  - destruct (forbidden_step d h) as (h' & -> & Hh').
    destruct (IH h') as [Hr Hn]. split; [done|].
    rewrite Hn, Hh'. lia.
Qed.

Lemma cold_step d :
  get_playlist (env always_forbidden) (S d) "purejazz" true fresh
  = get_playlist (env always_forbidden) d "purejazz" false
      (running resolved cold_round).
Proof.
  set (E := env always_forbidden).
  set (s1 := (get_channel E "purejazz" fresh).2).
  set (s2 := (get_playlist_url E guid (JStr "purejazz") true 5 s1).2).
  set (s3 := (session_get E VariantGet (Some variant_url)
                (cdn_params (JStr "d41d8cd9") (JStr "A1B2C3")) s2).2).
  assert (Hs3 : s3 = running resolved cold_round) by (vm_compute; reflexivity).
  rewrite <- Hs3.
  rewrite (get_playlist_dispatch E d "purejazz" true fresh s1 s2 s3
             guid (JStr "purejazz") (JStr "d41d8cd9") (JStr "A1B2C3")
             (Some variant_url) forbidden); [done|..];
    vm_compute; reflexivity.
Qed.

Lemma issued_le_calls site h : issued site h <= length (calls h).
Proof. unfold issued. apply length_filter. Qed.

(** ** The retry bound (claim C2) *)

(** C2 at the failing input: the variant playlist is answered with 403
    every time.  For every recursion limit [depth] of the interpreter,
    one client request for the playlist fetches the variant [depth + 1]
    times before it dies of [RecursionError]; so no constant bounds the
    number of upstream calls of a request. *)
Theorem playlist_request_unbounded (depth : nat) :
  let run := do_GET (env always_forbidden) (S depth) "/purejazz.m3u8" fresh in
  run.1 = Raise RecursionError
  /\ issued VariantGet (log run.2) = S depth
  /\ S depth <= length (calls (log run.2)).
Proof.
  assert (Hplay :
    let run := get_playlist (env always_forbidden) (S depth) "purejazz" true
                 fresh in
    run.1 = Raise RecursionError
    /\ issued VariantGet (log run.2) = S depth).
  { rewrite cold_step.
    destruct (forbidden_recursion depth cold_round) as [Hr Hn].
    split; [done|]. rewrite Hn.
    replace (issued VariantGet cold_round) with 1 by (vm_compute; reflexivity).
    lia. }
  destruct (get_playlist (env always_forbidden) (S depth) "purejazz" true
              fresh) as [r st'] eqn:Hrun.
  simpl in Hplay. destruct Hplay as [-> Hn].
  assert (Hget : do_GET (env always_forbidden) (S depth) "/purejazz.m3u8" fresh
                 = (Raise RecursionError, st')).
  { change (do_GET (env always_forbidden) (S depth) "/purejazz.m3u8" fresh)
      with (bind (get_playlist (env always_forbidden) (S depth) "purejazz"
                    true)
              (fun data =>
                 match data with
                 | Some text =>
                     if negb (String.eqb text "")
                     then ret (mkResponse 200 (Some "application/x-mpegURL")
                                 text)
                     else ret (mkResponse 500 None "")
                 | None => ret (mkResponse 500 None "")
                 end) fresh).
    by apply bind_raise_step. }
  rewrite Hget. simpl. repeat split; [done|].
  rewrite <- Hn. apply issued_le_calls.
Qed.

End Forbidden.

(** ** Cold start (claim C9) *)

(** The handler adds nothing to what [get_playlist] did. *)
Lemma do_GET_playlist_state (E : Env) (depth : nat) (st : State) :
  (do_GET E depth "/purejazz.m3u8" st).2
  = (get_playlist E depth "purejazz" true st).2.
Proof.
  change (do_GET E depth "/purejazz.m3u8" st)
    with (bind (get_playlist E depth "purejazz" true)
            (fun data =>
               match data with
               | Some text =>
                   if negb (String.eqb text "")
                   then ret (mkResponse 200 (Some "application/x-mpegURL")
                               text)
                   else ret (mkResponse 500 None "")
               | None => ret (mkResponse 500 None "")
               end) st).
  unfold bind.
  destruct (get_playlist E depth "purejazz" true st) as [[[text|]|e] s];
    try reflexivity.
  by destruct (negb _).
Qed.

(** C9, as the code has it: on a cold start, with an upstream that
    serves every call (whatever the song, the body of the variant
    playlist and the recursion limit, and whether or not the telemetry
    feed rejects the message), one request for /purejazz.m3u8 causes one
    login POST, one resume POST, one channel-listing POST, two
    now-playing GETs, one master-playlist GET and one variant-playlist
    GET, in this order. *)
Theorem cold_start_calls (depth : nat) (title artist station : json)
  (variant_body : string) (sent : option exn) :
  sent = None \/ sent = Some RequestError ->
  calls (log (do_GET
                (Upstream.env
                   (Upstream.served title artist station variant_body sent))
                (S depth) "/purejazz.m3u8" fresh).2)
  = [(RestPost, REST_FORMAT "modify/authentication");
     (RestPost, REST_FORMAT "resume?OAtrial=false");
     (RestPost, REST_FORMAT "get");
     (RestGet, REST_FORMAT "tune/now-playing-live");
     (RestGet, REST_FORMAT "tune/now-playing-live");
     (MasterGet, Upstream.master_url);
     (VariantGet, Upstream.variant_url)].
Proof.
  rewrite do_GET_playlist_state.
  intros [-> | ->]; vm_compute; reflexivity.
Qed.

Lemma cold_start_calls_witness :
  length (calls (log (do_GET
                        (Upstream.env
                           (Upstream.served (JStr "So What")
                              (JStr "Miles Davis") (JStr "Real Jazz")
                              "#EXTM3U" None))
                        1 "/purejazz.m3u8" fresh).2)) = 7.
Proof.
  rewrite (cold_start_calls 0 (JStr "So What") (JStr "Miles Davis")
             (JStr "Real Jazz") "#EXTM3U" None); [reflexivity|].
  left. reflexivity.
Defined.

(** C9 as stated fails: in the nominal scenario the request is served
    with status 200, and the history holds two now-playing GETs and a
    channel-listing POST, seven upstream calls in all. *)
Lemma cold_start_two_now_playing_calls :
  let run := do_GET (Upstream.env Upstream.nominal) 10 "/purejazz.m3u8"
               fresh in
  resp_status <$> (match run.1 with Ret r => Some r | Raise _ => None end)
  = Some 200%Z
  /\ rest_calls RestGet "tune/now-playing-live" (log run.2) = 2
  /\ rest_calls RestPost "get" (log run.2) = 1
  /\ length (calls (log run.2)) = 7.
Proof. repeat split; vm_compute; reflexivity. Qed.

(** ** How failures travel, for every environment *)

(** Whatever [get_song_info] raises, [get_playlist_url] raises. *)
Lemma get_playlist_url_song_info_raises (E : Env) guid channel_id use_cache
  n st e st' :
  get_song_info E guid channel_id false st = (Raise e, st') ->
  get_playlist_url E guid channel_id use_cache n st = (Raise e, st').
Proof.
  intros H. destruct n; cbn [get_playlist_url];
    by rewrite (bind_raise_step _ _ _ _ _ H).
Qed.

(** A now-playing answer whose body lacks [liveChannelData] makes
    [get_song_info] raise, whatever the rest of the world does. *)
Lemma get_song_info_shape_mismatch (E : Env) guid channel_id full st data st' e :
  get E "tune/now-playing-live" true st = (Ret data, st') ->
  Py.truthy data = true ->
  subscripts data live_channel_data = Raise e ->
  get_song_info E guid channel_id full st = (Raise e, st').
Proof.
  intros Hget Hdata Hsub. unfold get_song_info.
  rewrite (bind_ret_step _ _ _ _ _ Hget), Hdata. cbn [negb].
  unfold lift at 1, bind at 1. by rewrite Hsub.
Qed.

(** When the URL cannot be obtained, [get_playlist] raises. *)
Lemma get_playlist_without_url (E : Env) (d : nat) (name : string)
  (use_cache : bool) (st s1 s2 : State) (guid channel_id token gup_id : json) :
  get_channel E name st = (Ret (guid, channel_id), s1) ->
  Py.truthy guid = true ->
  Py.truthy channel_id = true ->
  get_playlist_url E guid channel_id use_cache 5 s1 = (Ret None, s2) ->
  get_sxmak_token s2 = (Ret token, s2) ->
  get_gup_id E s2 = (Ret gup_id, s2) ->
  get_playlist E (S d) name use_cache st = (Raise InvalidURL, s2).
Proof.
  intros Hch Hg Hc Hurl Htok Hgup.
  cbn [get_playlist]. rewrite (bind_ret_step _ _ _ _ _ Hch).
  cbn [fst snd]. rewrite Hg, Hc. cbn [negb orb].
  rewrite (bind_ret_step _ _ _ _ _ Hurl).
  rewrite (bind_ret_step _ _ _ _ _ Htok).
  by rewrite (bind_ret_step _ _ _ _ _ Hgup).
Qed.

(** With the catalog loaded, resolution is a pure search of it. *)
Lemma get_channel_loaded (E : Env) (name : string) (st : State) :
  Py.truthy (channels st) = true ->
  get_channel E name st
  = (l <~ Py.iter (channels st) ;; find_channel (PyStr.lower name) l, st).
Proof.
  intros H. unfold get_channel, get_channels, bind, lift, ret.
  rewrite H. simpl. by destruct (Py.iter (channels st)).
Qed.

(** A record whose name does not match but whose channelId does is
    resolved to its GUID and id. *)
Lemma find_channel_by_id (name n c : string) (items : list (string * json))
  (g : json) (rest : list json) :
  Py.assoc "name" items = Some (JStr n) ->
  Py.assoc "channelId" items = Some (JStr c) ->
  Py.assoc "channelGuid" items = Some g ->
  PyStr.lower n <> name ->
  PyStr.lower c = name ->
  find_channel name (JObj items :: rest) = Ret (g, JStr c).
Proof.
  intros Hn Hc Hg Hne Heq. cbn [find_channel Py.dict_get Py.getitem obind].
  rewrite Hn, Hc, Hg. cbn [obind Py.str_lower Py.eq_str].
  apply String.eqb_neq in Hne as ->. apply String.eqb_eq in Heq as ->.
  reflexivity.
Qed.

(** A record that matches by none of the three keys is skipped. *)
Lemma find_channel_skip (name n c : string) (num : json)
  (items : list (string * json)) (rest : list json) :
  Py.assoc "name" items = Some (JStr n) ->
  Py.assoc "channelId" items = Some (JStr c) ->
  Py.assoc "siriusChannelNumber" items = Some num ->
  PyStr.lower n <> name ->
  PyStr.lower c <> name ->
  Py.eq_str num name = false ->
  find_channel name (JObj items :: rest) = find_channel name rest.
Proof.
  intros Hn Hc Hnum Hne Hce Hnume.
  cbn [find_channel Py.dict_get Py.getitem obind].
  rewrite Hn, Hc, Hnum. cbn [obind Py.str_lower Py.eq_str].
  apply String.eqb_neq in Hne as ->. apply String.eqb_neq in Hce as ->.
  by rewrite Hnume.
Qed.

(** * The keypad controller *)

(** X1.  [constrain] lands in the interval and leaves values inside it alone. *)
Theorem constrain_in_range (val min_val max_val : Z) :
  (min_val <= max_val)%Z ->
  (min_val <= Mpad.constrain val min_val max_val <= max_val)%Z
  /\ ((min_val <= val <= max_val)%Z ->
      Mpad.constrain val min_val max_val = val).
Proof. unfold Mpad.constrain. lia. Qed.

Lemma constrain_in_range_witness :
  (0 <= Mpad.constrain 130 0 100 <= 100)%Z.
Proof. apply (constrain_in_range 130 0 100). lia. Defined.

Lemma process_keypress_volume (k : Mpad.key) (volume : Z) :
  (0 <= volume <= 100)%Z ->
  (0 <= (Mpad.process_keypress k volume).1 <= 100)%Z.
Proof.
  intros Hv.
  assert (Hc : forall v, (0 <= Mpad.constrain v 0 100 <= 100)%Z)
    by (intros v; unfold Mpad.constrain; lia).
  unfold Mpad.process_keypress.
  repeat case_match; simpl; auto.
Qed.

Lemma process_keypress_mixer (k : Mpad.key) (volume percent : Z) :
  In (Mpad.Amixer percent) (Mpad.process_keypress k volume).2 ->
  (0 <= percent <= 100)%Z.
Proof.
  assert (Hc : forall v, (0 <= Mpad.constrain v 0 100 <= 100)%Z)
    by (intros v; unfold Mpad.constrain; lia).
  unfold Mpad.process_keypress.
  repeat case_match; simpl; intros Hin; intuition; simplify_eq; apply Hc.
Qed.

(** X2.  Whatever keys are pressed, the tracked volume stays between 0 and
    100 and every mixer command carries a percentage between 0 and 100. *)
Theorem presses_keep_volume_in_range (ks : list Mpad.key) :
  (0 <= (Mpad.main ks).1 <= 100)%Z
  /\ forall percent, In (Mpad.Amixer percent) (Mpad.main ks).2 ->
                     (0 <= percent <= 100)%Z.
Proof.
  assert (H : forall volume, (0 <= volume <= 100)%Z ->
    (0 <= (Mpad.presses ks volume).1 <= 100)%Z
    /\ forall percent, In (Mpad.Amixer percent) (Mpad.presses ks volume).2 ->
                       (0 <= percent <= 100)%Z).
  { induction ks as [|k ks IH]; intros volume Hv; simpl.
    - split; [done|]. intros ? [].
    - pose proof (process_keypress_volume k volume Hv) as Hk.
      pose proof (process_keypress_mixer k volume) as Hm.
      destruct (Mpad.process_keypress k volume) as [v cs]. simpl in *.
      specialize (IH v Hk). destruct (Mpad.presses ks v) as [v' cs'].
      simpl in *. destruct IH as [IH1 IH2]. split; [done|].
      intros percent [H|H]%in_app_or; eauto. }
  unfold Mpad.main. specialize (H 75%Z ltac:(lia)).
  destruct (Mpad.presses ks 75) as [v cs]. simpl in *.
  destruct H as [H1 H2]. split; [done|].
  intros percent [H|H]; [|by eauto].
  injection H as <-. vm_compute. split; discriminate.
Qed.

(** X3.  Volume up followed by volume down gives the volume back, as long as
    the first step does not saturate; from 96 upwards it does. *)
Theorem volume_up_down (volume : Z) :
  (0 <= volume <= 95)%Z ->
  (Mpad.presses [Mpad.Name "vup"; Mpad.Name "vdown"] volume).1 = volume.
Proof. intros H. simpl. unfold Mpad.constrain. lia. Qed.

Lemma volume_up_down_witness :
  (Mpad.presses [Mpad.Name "vup"; Mpad.Name "vdown"] 75).1 = 75%Z.
Proof. apply (volume_up_down 75). lia. Defined.

(** X4.  A key press that starts a player runs exactly two commands: it
    kills the running VLC, then starts the new one. *)
Theorem player_started_after_kill (k : Mpad.key) (volume : Z)
  (args : list string) :
  In (Mpad.Cvlc args) (Mpad.process_keypress k volume).2 ->
  (Mpad.process_keypress k volume).2 = [Mpad.KillVLC; Mpad.Cvlc args].
Proof.
  unfold Mpad.process_keypress.
  repeat case_match; simpl; intros Hin; intuition; simplify_eq; reflexivity.
Qed.

Lemma player_started_after_kill_witness :
  (Mpad.process_keypress (Mpad.Num 9) 75).2
  = [Mpad.KillVLC; Mpad.Cvlc ["http://127.0.0.1:8888/purejazz.m3u8"]].
Proof.
  apply (player_started_after_kill (Mpad.Num 9) 75
           ["http://127.0.0.1:8888/purejazz.m3u8"]).
  simpl. right. left. reflexivity.
Defined.

(** X5.  A digit key never changes the tracked volume, not even key 0, which
    sets the mixer to 75: a volume-up after key 0 continues from the
    tracked volume, not from 75. *)
Theorem digit_keeps_tracked_volume (n volume : Z) :
  (Mpad.process_keypress (Mpad.Num n) volume).1 = volume
  /\ Mpad.presses [Mpad.Num 0; Mpad.Name "vup"] volume
     = (Mpad.constrain (volume + 5) 0 100,
        [Mpad.KillVLC; Mpad.Amixer 75;
         Mpad.Amixer (Mpad.constrain (Mpad.constrain (volume + 5) 0 100)
                        0 100)]).
Proof.
  split; [|reflexivity].
  unfold Mpad.process_keypress. repeat case_match; reflexivity.
Qed.

(** * Further properties of the proxy *)

(** ** Text *)

Lemma split_nonempty sep m s : PyStr.split sep m s <> [].
Proof.
  destruct s as [|c r]; simpl; [done|].
  destruct (Ascii.eqb c sep && PyStr.may_split m); [done|].
  by destruct (PyStr.split sep m r).
Qed.

Lemma join_cons_char sep c h t :
  PyStr.join sep (String c h :: t) = String c (PyStr.join sep (h :: t)).
Proof. by destruct t. Qed.

(** Splitting a text at a separator and joining the pieces with it gives
    the text back. *)
Lemma join_split (sep : ascii) (s : string) :
  PyStr.join (String sep "") (PyStr.split sep None s) = s.
Proof.
  induction s as [|c r IH]; [done|]. simpl.
  destruct (Ascii.eqb c sep) eqn:Hc; simpl.
  - apply Ascii.eqb_eq in Hc as ->.
    pose proof (split_nonempty sep None r) as Hne.
    destruct (PyStr.split sep None r) as [|h t] eqn:Hs; [done|].
    change (PyStr.join (String sep "") ("" :: h :: t))
      with (String sep (PyStr.join (String sep "") (h :: t))).
    by rewrite IH.
  - pose proof (split_nonempty sep None r) as Hne.
    destruct (PyStr.split sep None r) as [|h t] eqn:Hs; [done|].
    rewrite join_cons_char. by rewrite IH.
Qed.

(** X6.  A playlist without segment lines passes through the rewriter
    unchanged: whenever the rewriter returns (the variant URL has a
    directory after its host), and no line of the text ends in .aac
    once its trailing white space is stripped, the result is the text
    itself, line ends included. *)
Theorem rewrite_playlist_passthrough (url text out : string) :
  rewrite_playlist url text = Ret out ->
  Forall (fun l => PyStr.endswith (PyStr.rstrip l) ".aac" = false)
    (PyStr.split nl None text) ->
  out = text.
Proof.
  unfold rewrite_playlist. intros H Hlines.
  destruct (Py.seq_index (PyStr.rsplit1 "/" url) 0) as [base_url|];
    [|done].
  cbn [obind] in H.
  destruct (Py.seq_index _ 1) as [base_path|]; [|done].
  cbn [obind] in H. injection H as <-.
  rewrite rewrite_lines_map.
  replace (rewrite1 base_path <$> PyStr.split nl None text)
    with (PyStr.split nl None text); [apply join_split|].
  induction Hlines as [|l ls Hl _ IH]; [done|].
  rewrite fmap_cons, <- IH. unfold rewrite1. by rewrite Hl.
Qed.

Lemma rewrite_playlist_passthrough_witness :
  let text := "#EXTM3U" +:+ String nl "#EXT-X-VERSION:3" in
  match
    rewrite_playlist "https://cdn.example/AAC_Data/purejazz/v.m3u8" text
  with
  | Ret out => out = text
  | Raise _ => False
  end.
Proof.
  intros text.
  destruct (rewrite_playlist _ text) as [out|e] eqn:H.
  - apply (rewrite_playlist_passthrough _ _ _ H).
    vm_compute. repeat constructor.
  - vm_compute in H. discriminate H.
Defined.

Lemma lower_char_idem c :
  PyStr.lower_char (PyStr.lower_char c) = PyStr.lower_char c.
Proof. destruct c as [[] [] [] [] [] [] [] []]; reflexivity. Qed.

Lemma lower_idem s : PyStr.lower (PyStr.lower s) = PyStr.lower s.
Proof.
  induction s as [|c r IH]; [done|]. simpl. by rewrite lower_char_idem, IH.
Qed.

(** X7.  Channel resolution does not depend on the case of the key: two
    keys with the same lower-case form resolve alike, in every state. *)
Theorem get_channel_case_insensitive (E : Env) (a b : string) (st : State) :
  PyStr.lower a = PyStr.lower b ->
  get_channel E a st = get_channel E b st.
Proof. intros H. unfold get_channel. by rewrite H. Qed.

Lemma get_channel_case_insensitive_witness :
  get_channel (Upstream.env Upstream.nominal) "PureJazz" fresh
  = get_channel (Upstream.env Upstream.nominal) "purejazz" fresh.
Proof.
  apply (get_channel_case_insensitive (Upstream.env Upstream.nominal)
           "PureJazz" "purejazz" fresh).
  reflexivity.
Defined.

(** ** The catalog search *)

Lemma find_channel_record (name : string) (x : json) (rest : list json) :
  record_ok x = true ->
  find_channel name (x :: rest)
  = if record_matches name x
    then g <~ Py.getitem x "channelGuid" ;;
         c <~ Py.getitem x "channelId" ;; Ret (g, c)
    else find_channel name rest.
Proof.
  destruct x as [| | | | |items]; try done. intros Hok.
  cbn [find_channel record_ok record_matches Py.dict_get Py.getitem obind]
    in *.
  destruct (Py.assoc "name" items) as [[| | |n| |]|]; try done;
    destruct (Py.assoc "channelId" items) as [[| | |c| |]|]; try done;
    destruct (Py.assoc "channelGuid" items) as [g|]; try done;
    cbn [obind Py.str_lower Py.eq_str PyStr.lower];
    repeat (match goal with
            | |- context [String.eqb ?a ?b] => destruct (String.eqb a b)
            end; cbn [orb obind]; try reflexivity);
    destruct (Py.assoc "siriusChannelNumber" items) as [num|];
    cbn [obind Py.eq_str]; try reflexivity;
    by destruct (Py.eq_str num name).
Qed.

(** X8.  On a catalog of well-formed records the search never raises: it
    returns the GUID and id of the first record, in catalog order, that
    matches the key by name, channelId or siriusChannelNumber, and
    [(None, None)] when no record matches. *)
Theorem find_channel_first_match (name : string) (l : list json) :
  Forall (fun x => record_ok x = true) l ->
  (Forall (fun x => record_matches name x = false) l
   /\ find_channel name l = Ret (JNull, JNull))
  \/ exists pre x post g c,
       l = pre ++ x :: post
       /\ Forall (fun y => record_matches name y = false) pre
       /\ record_matches name x = true
       /\ Py.getitem x "channelGuid" = Ret g
       /\ Py.getitem x "channelId" = Ret (JStr c)
       /\ find_channel name l = Ret (g, JStr c).
Proof.
  induction 1 as [|x l Hx Hl IH]; [by left|].
  rewrite (find_channel_record name x l Hx).
  destruct (record_matches name x) eqn:Hm.
  - right. exists [], x, l.
    destruct x as [| | | | |items]; try done.
    cbn [record_ok] in Hx. cbn [Py.getitem].
    destruct (Py.assoc "channelId" items) as [[| | |c| |]|];
      try (by rewrite andb_false_r in Hx).
    destruct (Py.assoc "channelGuid" items) as [g|];
      [|by rewrite andb_false_r in Hx].
    exists g, c. by repeat split.
  - destruct IH as [[Hnone Hr]|(pre & y & post & g & c & -> & Hpre & Hy & Hg
                                & Hc & Hr)].
    + left. split; [by constructor|done].
    + right. exists (x :: pre), y, post, g, c. repeat split; try done.
      by constructor.
Qed.

Lemma find_channel_first_match_witness :
  (Forall (fun x => record_matches "67" x = false) [Upstream.purejazz]
   /\ find_channel "67" [Upstream.purejazz] = Ret (JNull, JNull))
  \/ exists pre x post g c,
       [Upstream.purejazz] = pre ++ x :: post
       /\ Forall (fun y => record_matches "67" y = false) pre
       /\ record_matches "67" x = true
       /\ Py.getitem x "channelGuid" = Ret g
       /\ Py.getitem x "channelId" = Ret (JStr c)
       /\ find_channel "67" [Upstream.purejazz] = Ret (g, JStr c).
Proof.
  apply (find_channel_first_match "67" [Upstream.purejazz]).
  repeat constructor.
Defined.

(** ** The variant selection *)

Lemma rsplit1_head sep s : exists d rest, PyStr.rsplit1 sep s = d :: rest.
Proof.
  destruct s as [|c r]; simpl; [by eauto|].
  destruct (PyStr.rsplit1 sep r) as [|a [|b [|? ?]]]; eauto;
    destruct (Ascii.eqb c sep); eauto.
Qed.

(** X9.  The loop of [get_playlist_variant_url] never raises: it returns
    [None] when no line of the master playlist ends in .m3u8 (trailing
    white space aside), and otherwise the first such line, stripped, as
    a sibling of the master URL. *)
Theorem first_variant_result (url : string) (lines : list string) :
  (Forall (fun x => variant_line x = false) lines
   /\ first_variant url lines = Ret None)
  \/ exists pre x post d rest,
       lines = pre ++ x :: post
       /\ Forall (fun y => variant_line y = false) pre
       /\ variant_line x = true
       /\ PyStr.rsplit1 "/" url = d :: rest
       /\ first_variant url lines = Ret (Some (d +:+ "/" +:+ PyStr.rstrip x)).
Proof.
  induction lines as [|x lines IH]; [by left|].
  cbn [first_variant]. fold (variant_line x).
  destruct (variant_line x) eqn:Hx.
  - right. destruct (rsplit1_head "/" url) as (d & rest & Hd).
    exists [], x, lines, d, rest. rewrite Hd. by repeat split.
  - destruct IH as [[Hnone Hr]|(pre & y & post & d & rest & -> & Hpre & Hy
                                & Hd & Hr)].
    + left. split; [by constructor|done].
    + right. exists (x :: pre), y, post, d, rest. repeat split; try done.
      by constructor.
Qed.

(** ** The routes of the handler *)

Lemma length_app_s (s t : string) :
  String.length (s +:+ t) = String.length s + String.length t.
Proof. induction s as [|c s IH]; [done|]. rewrite app_cons. simpl. lia. Qed.

Lemma endswith_app (p suffix : string) :
  PyStr.endswith (p +:+ suffix) suffix = true.
Proof.
  unfold PyStr.endswith. rewrite length_app_s.
  replace (String.length p + String.length suffix - String.length suffix)
    with (String.length p) by lia.
  rewrite slice_from_app, String.eqb_refl, andb_true_r.
  apply Nat.leb_le. lia.
Qed.

Lemma slice_to_from (n : nat) (s : string) :
  PyStr.slice_to n s +:+ PyStr.slice_from n s = s.
Proof.
  revert s. induction n as [|n IH]; intros [|c s]; simpl; try done.
  rewrite app_cons. by rewrite IH.
Qed.

Lemma endswith_inv (s suffix : string) :
  PyStr.endswith s suffix = true -> exists p, s = p +:+ suffix.
Proof.
  unfold PyStr.endswith. intros [_ H%String.eqb_eq]%andb_true_iff.
  pose proof (slice_to_from (String.length s - String.length suffix) s) as Hs.
  rewrite H in Hs. eauto.
Qed.

Lemma last_char_cons a s :
  s <> EmptyString -> last_char (String a s) = last_char s.
Proof. by destruct s. Qed.

Lemma last_char_app (p : string) c r :
  last_char (p +:+ String c r) = last_char (String c r).
Proof.
  induction p as [|a p IH]; [done|]. rewrite app_cons.
  rewrite last_char_cons; [done|]. by destruct p.
Qed.

Lemma endswith_last_char (s : string) c r :
  PyStr.endswith s (String c r) = true ->
  last_char s = last_char (String c r).
Proof. intros (p & ->)%endswith_inv. apply last_char_app. Qed.

(** X10.  Any path that ends in /key/1 is answered with status 200 and the
    16-byte key, without any upstream call or change of state. *)
Theorem do_GET_key (E : Env) (depth : nat) (path : string) (st : State) :
  PyStr.endswith path "/key/1" = true ->
  do_GET E depth path st
  = (Ret (mkResponse 200 (Some "text/plain") HLS_AES_KEY), st)
  /\ String.length HLS_AES_KEY = 16.
Proof.
  intros Hkey. split; [|reflexivity].
  pose proof (endswith_last_char _ _ _ Hkey) as Hlast.
  unfold do_GET.
  destruct (PyStr.endswith path ".m3u8") eqn:Hm.
  { apply endswith_last_char in Hm. rewrite Hlast in Hm. done. }
  destruct (PyStr.endswith path ".aac") eqn:Ha.
  { apply endswith_last_char in Ha. rewrite Hlast in Ha. done. }
  by rewrite Hkey.
Qed.

Lemma do_GET_key_witness :
  (do_GET (Upstream.env Upstream.nominal) 10 "/AAC_Data/purejazz/key/1"
     fresh).1
  = Ret (mkResponse 200 (Some "text/plain") HLS_AES_KEY).
Proof.
  rewrite (proj1 (do_GET_key (Upstream.env Upstream.nominal) 10
                    "/AAC_Data/purejazz/key/1" fresh eq_refl)).
  reflexivity.
Defined.

Lemma contains_app c (s t : string) :
  contains c (s +:+ t) = contains c s || contains c t.
Proof.
  induction s as [|a s IH]; [done|]. rewrite app_cons. simpl.
  by rewrite IH, orb_assoc.
Qed.

Lemma slice_to_app (p t : string) :
  PyStr.slice_to (String.length p) (p +:+ t) = p.
Proof.
  induction p as [|a p IH]; [by destruct t|]. rewrite app_cons. simpl.
  by rewrite IH.
Qed.

(** X11.  A playlist request for a key that the loaded catalog does not
    resolve is answered with status 500, without any upstream call or
    change of state. *)
Theorem do_GET_unknown_channel (E : Env) (depth : nat) (dir name : string)
  (st : State) (l : list json) :
  contains "/" name = false ->
  Py.truthy (channels st) = true ->
  Py.iter (channels st) = Ret l ->
  find_channel (PyStr.lower name) l = Ret (JNull, JNull) ->
  do_GET E (S depth) (dir +:+ "/" +:+ name +:+ ".m3u8") st
  = (Ret (mkResponse 500 None ""), st).
Proof.
  intros Hname Hch Hiter Hfind.
  assert (Hends :
    PyStr.endswith (dir +:+ "/" +:+ name +:+ ".m3u8") ".m3u8" = true).
  { replace (dir +:+ "/" +:+ name +:+ ".m3u8")
      with ((dir +:+ "/" +:+ name) +:+ ".m3u8")
      by (by rewrite !app_assoc_s).
    apply endswith_app. }
  unfold do_GET. rewrite Hends.
  change ("/" +:+ name +:+ ".m3u8") with (String "/" (name +:+ ".m3u8")).
  rewrite rsplit1_last
    by (rewrite contains_app, Hname; reflexivity).
  change (Py.seq_index [dir; name +:+ ".m3u8"] 1)
    with (Ret (A:=string) (name +:+ ".m3u8")).
  unfold lift at 1, bind at 1.
  assert (Hdrop : PyStr.drop_last 5 (name +:+ ".m3u8") = name).
  { unfold PyStr.drop_last. rewrite length_app_s.
    replace (String.length name + String.length ".m3u8" - 5)
      with (String.length name) by (simpl; lia).
    apply slice_to_app. }
  rewrite Hdrop.
  assert (Hplay : get_playlist E (S depth) name true st = (Ret None, st)).
  { cbn [get_playlist].
    rewrite (bind_ret_step _ _ _ (JNull, JNull) st); [done|].
    rewrite get_channel_loaded by done. rewrite Hiter. cbn [obind].
    by rewrite Hfind. }
  by rewrite (bind_ret_step _ _ _ _ _ Hplay).
Qed.

Lemma do_GET_unknown_channel_witness :
  do_GET (Upstream.env Upstream.nominal) 1
    ("" +:+ "/" +:+ "nosuchchannel" +:+ ".m3u8")
    (Upstream.warm Upstream.variant_url)
  = (Ret (mkResponse 500 None ""), Upstream.warm Upstream.variant_url).
Proof.
  apply (do_GET_unknown_channel (Upstream.env Upstream.nominal) 0 ""
           "nosuchchannel" (Upstream.warm Upstream.variant_url)
           [Upstream.purejazz]); reflexivity.
Defined.

(** ** What the session methods leave alone *)

Global Instance within_refl s : Reflexive (within s 0).
Proof. intros st. unfold within. lia. Qed.

Global Instance within_trans s : Transitive (within s 0).
Proof. unfold within. intros a b c H1 H2. lia. Qed.

Global Instance same_data_refl : Reflexive same_data.
Proof. by intros st. Qed.

Global Instance same_data_trans : Transitive same_data.
Proof. unfold same_data. intros a b c [? ?] [? ?]. split; congruence. Qed.

Global Instance silent_refl : Reflexive silent.
Proof. by intros st. Qed.

Global Instance silent_trans : Transitive silent.
Proof. unfold silent. intros a b c H1 H2. congruence. Qed.

Lemma same_data_session_request (E : Env) site u ps :
  preserves same_data (session_request E site u ps).
Proof.
  intros st r st'. unfold session_request.
  by destruct (url_sendable u); intros [= <- <-].
Qed.

Lemma silent_session_request (E : Env) site u ps :
  preserves silent (session_request E site u ps).
Proof.
  intros st r st'. unfold session_request, silent.
  destruct (url_sendable u); intros [= <- <-]; [|done]. simpl.
  unfold telemetry. rewrite omap_app. simpl. by rewrite app_nil_r.
Qed.

Lemma silent_store_playlist k v : preserves silent (store_playlist k v).
Proof. by intros st r st' [= <- <-]. Qed.

(** A relation that every upstream request preserves is preserved by
    the methods that do nothing else to the object. *)
Section Frame.

Context {R : State -> State -> Prop} `{!Reflexive R} `{!Transitive R}.
Variable E : Env.
Hypothesis R_request :
  forall site u ps, preserves R (session_request E site u ps).

Lemma frame_send site method : preserves R (send E site method).
Proof.
  unfold send. apply preserves_bind; [apply R_request|]. intros res.
  preserved.
Qed.

Lemma frame_login : preserves R (login E).
Proof.
  unfold login, is_logged_in.
  apply preserves_bind; [apply frame_send|]. intros data. preserved.
Qed.

Lemma frame_authenticate : preserves R (authenticate E).
Proof.
  unfold authenticate, is_logged_in, is_session_authenticated.
  apply preserves_bind; [preserved|]. intros li.
  apply preserves_bind; [destruct li; [preserved|apply frame_login]|].
  intros ok. destruct ok; cbn [negb]; [|preserved].
  apply preserves_bind; [apply frame_send|]. intros data. preserved.
Qed.

Lemma frame_guarded site method flag :
  preserves R (guarded E site method flag).
Proof.
  unfold guarded, is_session_authenticated.
  destruct flag; [|apply frame_send].
  apply preserves_bind; [preserved|]. intros a.
  destruct a; [apply frame_send|].
  apply preserves_bind; [apply frame_authenticate|]. intros ok.
  destruct ok; [apply frame_send|preserved].
Qed.

Lemma frame_get_sxmak_token : preserves R get_sxmak_token.
Proof. unfold get_sxmak_token, cookie. preserved. Qed.

Lemma frame_get_gup_id : preserves R (get_gup_id E).
Proof. unfold get_gup_id, cookie. preserved. Qed.

Lemma frame_get_playlist_variant_url url :
  preserves R (get_playlist_variant_url E url).
Proof.
  unfold get_playlist_variant_url.
  apply preserves_bind; [apply frame_get_sxmak_token|]. intros token.
  apply preserves_bind; [apply frame_get_gup_id|]. intros gup_id.
  apply preserves_bind; [apply R_request|]. intros res. preserved.
Qed.

Hypothesis R_store : forall k v, preserves R (store_playlist k v).

Lemma frame_select_large_info channel_id data infos :
  preserves R (select_large_info E channel_id data infos).
Proof.
  induction infos as [|info rest IH]; cbn [select_large_info]; [preserved|].
  apply preserves_bind; [preserved|]. intros size.
  destruct (Py.eq_str size "LARGE"); [|done].
  apply preserves_bind; [preserved|]. intros u.
  apply preserves_bind; [preserved|]. intros playlist_url.
  apply preserves_bind; [apply frame_get_playlist_variant_url|]. intros v.
  apply preserves_bind; [preserved|]. intros k.
  apply preserves_bind; [apply R_store|]. intros _. preserved.
Qed.

Lemma frame_get_playlist_info guid channel_id use_cache max_attempts :
  preserves R (get_playlist_info E guid channel_id use_cache max_attempts).
Proof.
  unfold get_playlist_info, get.
  apply preserves_bind; [apply frame_guarded|]. intros data.
  destruct (negb (Py.truthy data)); [preserved|].
  apply preserves_bind; [preserved|]. intros [code|]; [|preserved].
  assert (Hm3u8 : forall A (f : option json -> M A),
    (forall x, preserves R (f x)) ->
    preserves R
      (infos <-
         try_except
           (p <- lift (subscripts data
                         (live_channel_data ++ [K "hlsAudioInfos"])) ;;
            mydata <- lift (subscripts data live_channel_data) ;;
            _ <- lift (subscripts mydata (last_cut ++ [K "title"])) ;;
            ret (Some p))
           [KeyError; IndexError]
           (ret None) ;;
       f infos)).
  { intros A f Hf. apply preserves_bind; [preserved|]. done. }
  assert (Hrest : forall infos : option json,
    preserves R
      match infos with
      | None => ret JNull
      | Some ps =>
          l <- lift (Py.iter ps) ;; select_large_info E channel_id data l
      end).
  { intros [ps|]; [|preserved].
    apply preserves_bind; [preserved|]. intros l.
    apply frame_select_large_info. }
  cbv zeta.
  destruct (Py.eq_int code 201 || Py.eq_int code 208).
  - destruct max_attempts; [preserved|].
    apply preserves_bind; [apply frame_authenticate|]. intros ok.
    destruct ok; [by apply Hm3u8|preserved].
  - destruct (negb (Py.eq_int code 100)); [preserved|by apply Hm3u8].
Qed.

End Frame.

(** ** Call budgets *)

Section Within.

Variable E : Env.
Variable s : callsite.

Lemma within_quiet {A} (m : M A) k :
  preserves (quiet s) m -> preserves (within s k) m.
Proof.
  intros H st r st' Hm. apply H in Hm. unfold quiet, within in *. lia.
Qed.

Lemma within_weaken {A} (m : M A) a b :
  a <= b -> preserves (within s a) m -> preserves (within s b) m.
Proof. intros Hab H st r st' Hm. apply H in Hm. unfold within in *. lia. Qed.

Lemma within_bind {A B} (m : M A) (k : A -> M B) a b :
  preserves (within s a) m -> (forall x, preserves (within s b) (k x)) ->
  preserves (within s (a + b)) (bind m k).
Proof.
  intros Hm Hk st r st' H.
  apply bind_inv in H as [(x & s1 & H1 & H2)|(e & H1 & _)].
  - apply Hm in H1. apply Hk in H2. unfold within in *. lia.
  - apply Hm in H1. unfold within in *. lia.
Qed.

Lemma within_session_request site u ps :
  preserves (within s 1) (session_request E site u ps).
Proof.
  intros st r st'. unfold session_request, within.
  destruct (url_sendable u); intros [= <- <-]; [|lia]. simpl.
  rewrite issued_http. destruct (decide _); lia.
Qed.

Lemma within_send site method : preserves (within s 1) (send E site method).
Proof.
  unfold send. apply (within_bind _ _ 1 0); [apply within_session_request|].
  intros res. preserved.
Qed.

Lemma within_login : preserves (within s 1) (login E).
Proof.
  unfold login, is_logged_in.
  apply (within_bind _ _ 1 0); [apply within_send|]. intros data. preserved.
Qed.

Lemma within_authenticate : preserves (within s 2) (authenticate E).
Proof.
  unfold authenticate, is_logged_in, is_session_authenticated.
  apply (within_bind _ _ 0 2); [preserved|]. intros li.
  apply (within_bind _ _ 1 1).
  { destruct li; [|apply within_login].
    apply (within_weaken _ 0 1); [lia|preserved]. }
  intros ok. destruct ok; cbn [negb];
    [|apply (within_weaken _ 0 1); [lia|preserved]].
  apply (within_bind _ _ 1 0); [apply within_send|]. intros data. preserved.
Qed.

End Within.

(** ** What escapes *)

Section Raises.

Context {cs : list exn}.

Lemma raises_ret {A} (a : A) : raises_within cs (ret a).
Proof. by intros st e st'. Qed.

Lemma raises_read {A} (f : State -> A) :
  raises_within cs (fun st => (Ret (f st), st)).
Proof. by intros st e st'. Qed.

Lemma raises_lift {A} (o : outcome A) :
  (forall e, o = Raise e -> e ∈ cs) -> raises_within cs (lift o).
Proof. intros H st e st' [= -> _]. by apply H. Qed.

Lemma raises_bind {A B} (m : M A) (k : A -> M B) :
  raises_within cs m -> (forall a, raises_within cs (k a)) ->
  raises_within cs (bind m k).
Proof.
  intros Hm Hk st e st' H.
  apply bind_inv in H as [(a & s1 & _ & H2)|(e' & H1 & [= <-])].
  - by eapply Hk.
  - by eapply Hm.
Qed.

Lemma raises_try_except {A} (body handler : M A) classes :
  raises_within (classes ++ cs) body -> raises_within cs handler ->
  raises_within cs (try_except body classes handler).
Proof.
  intros Hb Hh st e st'. unfold try_except.
  destruct (body st) as [[a|e'] s1] eqn:H1; [done|].
  case_bool_decide as Hin.
  - intros H. by eapply Hh.
  - intros [= <- <-].
    by destruct (proj1 (elem_of_app _ _ _) (Hb _ _ _ H1)).
Qed.

End Raises.

Lemma send_returns (E : Env) site method st :
  exists j st', send E site method st = (Ret j, st').
Proof.
  unfold send, bind, session_request, try_except, lift, ret, res_json.
  replace (url_sendable (REST_FORMAT method)) with true by done.
  simpl. destruct (negb _); [by eauto|].
  destruct (body_json _); simpl; by eauto.
Qed.

Lemma raises_send (E : Env) cs site method :
  raises_within cs (send E site method).
Proof.
  intros st e st' H.
  destruct (send_returns E site method st) as (j & s1 & Hj). congruence.
Qed.

Lemma getitem_raises j k e :
  Py.getitem j k = Raise e -> e = KeyError \/ e = TypeError.
Proof.
  unfold Py.getitem. destruct j; try (intros [= <-]; by right).
  destruct (Py.assoc k items); [done|]. intros [= <-]. by left.
Qed.

Lemma status_raises data e :
  subscripts data [K "ModuleListResponse"; K "status"] = Raise e ->
  e ∈ [KeyError; TypeError].
Proof.
  cbn [subscripts subscript]. unfold obind.
  destruct (Py.getitem data _) as [v|e'] eqn:H1.
  - destruct (Py.getitem v _) as [w|e'] eqn:H2; [done|]. intros [= <-].
    apply getitem_raises in H2 as [-> | ->]; set_solver.
  - intros [= <-]. apply getitem_raises in H1 as [-> | ->]; set_solver.
Qed.

Lemma raises_login (E : Env) : raises_within [TypeError] (login E).
Proof.
  unfold login. apply raises_bind; [apply raises_send|]. intros data.
  destruct (negb (Py.truthy data)); [apply raises_ret|].
  apply raises_try_except; [|apply raises_ret].
  apply raises_bind; [apply raises_lift, status_raises|]. intros s.
  destruct (Py.eq_int s 1); [apply raises_read|apply raises_ret].
Qed.

Lemma raises_authenticate (E : Env) :
  raises_within [TypeError] (authenticate E).
Proof.
  unfold authenticate. apply raises_bind; [apply raises_read|]. intros li.
  apply raises_bind;
    [destruct li; [apply raises_ret|apply raises_login]|].
  intros ok. destruct (negb ok); [apply raises_ret|].
  apply raises_bind; [apply raises_send|]. intros data.
  destruct (negb (Py.truthy data)); [apply raises_ret|].
  apply raises_try_except; [|apply raises_ret].
  apply raises_bind; [apply raises_lift, status_raises|]. intros s.
  destruct (Py.eq_int s 1); [apply raises_read|apply raises_ret].
Qed.

#[local] Hint Resolve quiet_session_request quiet_session_get
  quiet_aio_send_data quiet_set_channels quiet_store_playlist
  quiet_get_sxmak_token quiet_get_gup_id quiet_login quiet_authenticate
  quiet_get quiet_post quiet_get_song_info quiet_get_playlist_variant_url
  quiet_select_large quiet_get_playlist_url quiet_get_channels
  quiet_get_channel : quiet.

#[local] Hint Extern 1 (_ <> _) => discriminate : quiet.

Ltac quiet := repeat (solve [auto 3 with quiet] || preserved_step ||
  match goal with
  | |- preserves _ (if ?b then _ else _) => destruct b
  | |- preserves _ (match ?x with _ => _ end) => destruct x
  end).

(** ** The session manager *)

(** X12.  Whatever the upstream answers, [authenticate] makes at most
    two upstream calls, both POSTs (the login, skipped when the login
    cookie is present, and the resume); it sends no telemetry and does
    not touch the playlist cache or the catalog; it returns a truth
    value, or lets a [TypeError] through (an answer whose JSON body is
    not an object). *)
Theorem authenticate_budget (E : Env) (st st' : State) (r : outcome bool) :
  authenticate E st = (r, st') ->
  issued RestPost (log st') <= issued RestPost (log st) + 2
  /\ (forall s, s <> RestPost -> issued s (log st') = issued s (log st))
  /\ telemetry (log st') = telemetry (log st)
  /\ playlists st' = playlists st
  /\ channels st' = channels st
  /\ (r = Raise TypeError \/ exists b, r = Ret b).
Proof.
  intros H. split; [by apply (within_authenticate E RestPost) in H|].
  split; [intros s Hs; by apply (quiet_authenticate E s) in H|].
  split.
  { apply (frame_authenticate (R:=silent) E) in H; [done|].
    apply silent_session_request. }
  assert (same_data st st') as [Hp Hc].
  { apply (frame_authenticate (R:=same_data) E) in H; [done|].
    apply same_data_session_request. }
  repeat split; try done.
  destruct r as [b|e]; [by eauto|]. left.
  pose proof (raises_authenticate _ _ _ _ H) as Hin.
  by inversion Hin as [|? ? ? Hnil]; [|inversion Hnil].
Qed.

Lemma authenticate_budget_witness :
  let st := fresh in
  let st' := (authenticate (Upstream.env Upstream.nominal) fresh).2 in
  issued RestPost (log st') <= issued RestPost (log st) + 2
  /\ playlists st' = playlists st.
Proof.
  intros st st'.
  destruct (authenticate_budget (Upstream.env Upstream.nominal) fresh st'
              (authenticate (Upstream.env Upstream.nominal) fresh).1)
    as (H1 & _ & _ & H2 & _).
  - apply surjective_pairing.
  - by split.
Defined.

Lemma authenticate_true_jar (E : Env) (st st' : State) :
  authenticate E st = (Ret true, st') -> authenticated (cookies st') = true.
Proof.
  unfold authenticate. intros H.
  apply bind_ret_inv in H as (li & s0 & _ & H).
  apply bind_ret_inv in H as (ok & s1 & _ & H).
  destruct ok; cbn [negb] in H; [|done].
  apply bind_ret_inv in H as (data & s2 & _ & H).
  destruct (Py.truthy data); cbn [negb] in H; [|done].
  apply try_except_ret_inv in H as [H|(e & s3 & _ & _ & H)]; [|done].
  apply bind_ret_inv in H as (s & s3 & Hs & H).
  unfold lift in Hs. simplify_eq.
  destruct (Py.eq_int s 1); [|done].
  unfold is_session_authenticated in H. by simplify_eq.
Qed.

(** X13.  A guarded [get] sends at most one GET, and it sends it only
    from a session that holds both session cookies: either the one it
    was called in, or the one a successful [authenticate] left.  When
    no GET goes out, nothing is fetched behind the guard's back. *)
Theorem get_requires_session (E : Env) (method : string) (st st' : State)
  (r : outcome json) :
  get E method true st = (r, st') ->
  issued RestGet (log st') <= issued RestGet (log st) + 1
  /\ (issued RestGet (log st') = issued RestGet (log st) + 1 ->
      exists s1, authenticated (cookies s1) = true
                 /\ send E RestGet method s1 = (r, st')).
Proof.
  unfold get, guarded, is_session_authenticated. intros H.
  apply bind_inv in H as [(a & s0 & [= <- <-] & H)|(e & [=] & _)]; subst.
  destruct (authenticated (cookies st)) eqn:Ha.
  { pose proof (within_send E RestGet _ _ _ _ _ H) as Hw.
    split; [done|]. eauto. }
  apply bind_inv in H as [(ok & s1 & Hauth & H)|(e & Hauth & ->)].
  - pose proof (quiet_authenticate E RestGet ltac:(done) _ _ _ Hauth) as Hq.
    unfold quiet in Hq. destruct ok.
    + pose proof (within_send E RestGet _ _ _ _ _ H) as Hw.
      unfold within in Hw. split; [lia|]. intros _.
      exists s1. split; [by eapply authenticate_true_jar|done].
    + unfold ret in H. simplify_eq. split; lia.
  - pose proof (quiet_authenticate E RestGet ltac:(done) _ _ _ Hauth) as Hq.
    unfold quiet in Hq. split; lia.
Qed.

Lemma get_requires_session_witness :
  let E := Upstream.env Upstream.nominal in
  issued RestGet (log (get E "tune/now-playing-live" true fresh).2)
  <= issued RestGet (log fresh) + 1.
Proof.
  intros E.
  eapply proj1, (get_requires_session E "tune/now-playing-live" fresh).
  apply surjective_pairing.
Defined.

(** X14.  [login] reports success only when the login cookie is in the
    jar; it has then made exactly one call, the login POST, which was
    answered with HTTP 200. *)
Theorem login_success_logged_in (E : Env) (st st' : State) :
  login E st = (Ret true, st') ->
  logged_in (cookies st') = true
  /\ exists rp,
       log st' = log st
                 ++ [EHttp (mkRequest RestPost
                              (REST_FORMAT "modify/authentication") []) rp]
       /\ status_code rp = 200%Z.
Proof.
  unfold login. intros H.
  apply bind_ret_inv in H as (data & s1 & Hsend & H).
  destruct (Py.truthy data) eqn:Hdata; cbn [negb] in H; [|done].
  apply send_log in Hsend as (rp & Hlog & _ & Hstatus).
  specialize (Hstatus data eq_refl Hdata).
  apply try_except_ret_inv in H as [H|(e & s3 & _ & _ & H)]; [|done].
  apply bind_ret_inv in H as (s & s3 & Hs & H).
  unfold lift in Hs. simplify_eq.
  destruct (Py.eq_int s 1); [|done].
  unfold is_logged_in in H. simplify_eq. eauto.
Qed.

Lemma login_success_logged_in_witness :
  logged_in (cookies (login (Upstream.env Upstream.nominal) fresh).2) = true.
Proof.
  eapply proj1, (login_success_logged_in (Upstream.env Upstream.nominal)
                   fresh).
  vm_compute. reflexivity.
Defined.

(** ** The budget of a playlist lookup *)

Section Budget.

Variable E : Env.

Lemma send_quiet s site method :
  site <> s -> preserves (quiet s) (send E site method).
Proof. intros Hs. unfold send. quiet. Qed.

Lemma get_within_get method flag :
  preserves (within RestGet 1) (get E method flag).
Proof.
  unfold get, guarded, is_session_authenticated.
  destruct flag; [|apply within_send].
  apply (within_bind _ _ _ 0 1); [preserved|]. intros a.
  destruct a; [apply within_send|].
  apply (within_bind _ _ _ 0 1); [apply within_quiet; quiet|]. intros ok.
  destruct ok; [apply within_send|apply within_quiet; quiet].
Qed.

Lemma get_within_post method flag :
  preserves (within RestPost 2) (get E method flag).
Proof.
  unfold get, guarded, is_session_authenticated.
  destruct flag; [|by apply within_quiet, send_quiet].
  apply (within_bind _ _ _ 0 2); [preserved|]. intros a.
  destruct a; [by apply within_quiet, send_quiet|].
  apply (within_bind _ _ _ 2 0); [apply within_authenticate|]. intros ok.
  destruct ok; [by apply within_quiet, send_quiet|apply within_quiet; quiet].
Qed.

Lemma get_song_info_within s k guid channel_id full :
  (forall method flag, preserves (within s k) (get E method flag)) ->
  preserves (within s k) (get_song_info E guid channel_id full).
Proof.
  intros Hget. unfold get_song_info.
  apply (within_weaken _ _ (k + 0)); [lia|].
  apply within_bind; [apply Hget|]. intros data. apply within_quiet. quiet.
Qed.

Lemma variant_url_within url :
  preserves (within MasterGet 1) (get_playlist_variant_url E url).
Proof.
  unfold get_playlist_variant_url.
  apply (within_bind _ _ _ 0 1); [apply within_quiet; quiet|]. intros token.
  apply (within_bind _ _ _ 0 1); [apply within_quiet; quiet|]. intros gup_id.
  apply (within_bind _ _ _ 1 0); [apply within_session_request|]. intros res.
  apply within_quiet. quiet.
Qed.

Lemma select_large_within channel_id infos :
  preserves (within MasterGet 1) (select_large E channel_id infos).
Proof.
  induction infos as [|info rest IH]; cbn [select_large];
    [apply within_quiet; quiet|].
  apply (within_bind _ _ _ 0 1); [apply within_quiet; quiet|]. intros size.
  destruct (Py.eq_str size "LARGE"); [|done].
  apply (within_bind _ _ _ 0 1); [apply within_quiet; quiet|]. intros u.
  apply (within_bind _ _ _ 0 1); [apply within_quiet; quiet|]. intros p.
  apply (within_bind _ _ _ 1 0); [apply variant_url_within|]. intros v.
  apply within_quiet. quiet.
Qed.

Lemma select_large_info_within channel_id data infos :
  preserves (within MasterGet 1) (select_large_info E channel_id data infos).
Proof.
  induction infos as [|info rest IH]; cbn [select_large_info];
    [apply within_quiet; quiet|].
  apply (within_bind _ _ _ 0 1); [apply within_quiet; quiet|]. intros size.
  destruct (Py.eq_str size "LARGE"); [|done].
  apply (within_bind _ _ _ 0 1); [apply within_quiet; quiet|]. intros u.
  apply (within_bind _ _ _ 0 1); [apply within_quiet; quiet|]. intros p.
  apply (within_bind _ _ _ 1 0); [apply variant_url_within|]. intros v.
  apply within_quiet. quiet.
Qed.

(** The shape of [get_playlist_url]: a prologue that costs [a], a
    second now-playing call that costs [b], a re-authentication that
    costs [c] before each retry, and the variant selection, which costs
    [d]. *)
Lemma get_playlist_url_within s a b c d guid channel_id use_cache :
  preserves (within s a) (get_song_info E guid channel_id false) ->
  preserves (within s b) (get E "tune/now-playing-live" true) ->
  preserves (within s c) (authenticate E) ->
  (forall l, preserves (within s d) (select_large E channel_id l)) ->
  forall n,
    preserves (within s (n * (a + b + c) + (a + b + d)))
      (get_playlist_url E guid channel_id use_cache n).
Proof.
  intros Ha Hb Hc Hd n. induction n as [|n IH]; cbn [get_playlist_url].
  - apply (within_weaken _ _ (a + (0 + (b + (0 + (0 + d)))))); [lia|].
    apply within_bind; [done|]. intros _.
    apply within_bind; [destruct use_cache; preserved|]. intros cached.
    destruct cached as [url|]; [apply within_quiet; quiet|].
    apply within_bind; [done|]. intros data.
    destruct (negb (Py.truthy data)); [apply within_quiet; quiet|].
    apply within_bind; [preserved|]. intros [code|];
      [|apply within_quiet; quiet].
    destruct (Py.eq_int code 201 || Py.eq_int code 208);
      [apply within_quiet; quiet|].
    destruct (negb (Py.eq_int code 100)); [apply within_quiet; quiet|].
    apply within_bind; [preserved|]. intros [ps|];
      [|apply within_quiet; quiet].
    apply (within_weaken _ _ (0 + d)); [lia|].
    apply within_bind; [preserved|]. done.
  - apply (within_weaken _ _
             (a + (0 + (b + (0 + (c + (n * (a + b + c) + (a + b + d))))))));
      [lia|].
    apply within_bind; [done|]. intros _.
    apply within_bind; [destruct use_cache; preserved|]. intros cached.
    destruct cached as [url|]; [apply within_quiet; quiet|].
    apply within_bind; [done|]. intros data.
    destruct (negb (Py.truthy data)); [apply within_quiet; quiet|].
    apply within_bind; [preserved|]. intros [code|];
      [|apply within_quiet; quiet].
    destruct (Py.eq_int code 201 || Py.eq_int code 208).
    + apply within_bind; [done|]. intros ok.
      destruct ok; [done|apply within_quiet; quiet].
    + destruct (negb (Py.eq_int code 100)); [apply within_quiet; quiet|].
      apply (within_weaken _ _ (0 + (0 + d))); [lia|].
      apply within_bind; [preserved|]. intros [ps|];
        [|apply within_quiet; quiet].
      apply within_bind; [preserved|]. done.
Qed.

End Budget.

(** X15.  A playlist lookup with [max_attempts] retries left is
    bounded, whatever the upstream answers: at most
    [2 * (max_attempts + 1)] now-playing GETs (two per round, one of
    them made by [get_song_info]), at most [6 * max_attempts + 4] POSTs
    of the session manager, at most one fetch of a master playlist, and
    no fetch of a variant playlist or of a segment. *)
Theorem get_playlist_url_budget (E : Env) (guid channel_id : json)
  (use_cache : bool) (max_attempts : nat) (st st' : State)
  (r : outcome (option string)) :
  get_playlist_url E guid channel_id use_cache max_attempts st = (r, st') ->
  issued RestGet (log st') <= issued RestGet (log st) + 2 * (max_attempts + 1)
  /\ issued RestPost (log st')
     <= issued RestPost (log st) + (6 * max_attempts + 4)
  /\ issued MasterGet (log st') <= issued MasterGet (log st) + 1
  /\ issued VariantGet (log st') = issued VariantGet (log st)
  /\ issued SegmentGet (log st') = issued SegmentGet (log st).
Proof.
  intros H. repeat split.
  - pose proof (get_playlist_url_within E RestGet 1 1 0 0 guid channel_id
                  use_cache) as Hw.
    unfold preserves, within in Hw.
    etrans; [eapply Hw; [..|exact H]|lia].
    + apply get_song_info_within. apply get_within_get.
    + apply get_within_get.
    + apply within_quiet. quiet.
    + intros l. apply within_quiet. quiet.
  - pose proof (get_playlist_url_within E RestPost 2 2 2 0 guid channel_id
                  use_cache) as Hw.
    unfold preserves, within in Hw.
    etrans; [eapply Hw; [..|exact H]|lia].
    + apply get_song_info_within. apply get_within_post.
    + apply get_within_post.
    + apply within_authenticate.
    + intros l. apply within_quiet. quiet.
  - pose proof (get_playlist_url_within E MasterGet 0 0 0 1 guid channel_id
                  use_cache) as Hw.
    unfold preserves, within in Hw.
    etrans; [eapply Hw; [..|exact H]|lia].
    + apply within_quiet. quiet.
    + apply within_quiet. quiet.
    + apply within_quiet. quiet.
    + apply select_large_within.
  - by apply (quiet_get_playlist_url E VariantGet) in H.
  - by apply (quiet_get_playlist_url E SegmentGet) in H.
Qed.

Lemma get_playlist_url_budget_witness :
  let E := Upstream.env Upstream.nominal in
  let st := Upstream.warm Upstream.variant_url in
  let st' := (get_playlist_url E Upstream.guid (JStr "purejazz") false 5
                st).2 in
  issued RestGet (log st') <= issued RestGet (log st) + 2 * (5 + 1)
  /\ issued MasterGet (log st') <= issued MasterGet (log st) + 1.
Proof.
  intros E st st'.
  destruct (get_playlist_url_budget E Upstream.guid (JStr "purejazz") false
              5 st st'
              (get_playlist_url E Upstream.guid (JStr "purejazz") false 5
                 st).1)
    as (H1 & _ & H2 & _).
  - apply surjective_pairing.
  - by split.
Defined.

Lemma select_large_info_quiet (E : Env) s channel_id data infos :
  MasterGet <> s ->
  preserves (quiet s) (select_large_info E channel_id data infos).
Proof.
  intros Hs. induction infos as [|info rest IH]; cbn [select_large_info];
    quiet.
Qed.

Lemma get_playlist_info_quiet (E : Env) s guid channel_id use_cache n :
  RestGet <> s -> RestPost <> s -> MasterGet <> s ->
  preserves (quiet s) (get_playlist_info E guid channel_id use_cache n).
Proof.
  intros Hg Hp Hm.
  pose proof (select_large_info_quiet E s channel_id) as Hsel.
  unfold get_playlist_info. cbv zeta. quiet.
Qed.

Lemma get_playlist_info_within (E : Env) s b c d guid channel_id use_cache
  n :
  preserves (within s b) (get E "tune/now-playing-live" true) ->
  preserves (within s c) (authenticate E) ->
  (forall data l,
     preserves (within s d) (select_large_info E channel_id data l)) ->
  preserves (within s (b + c + d))
    (get_playlist_info E guid channel_id use_cache n).
Proof.
  intros Hb Hc Hd. unfold get_playlist_info. cbv zeta.
  assert (Hm3u8 : forall data, preserves (within s (0 + (0 + d)))
    (infos <-
       try_except
         (p <- lift (subscripts data
                       (live_channel_data ++ [K "hlsAudioInfos"])) ;;
          mydata <- lift (subscripts data live_channel_data) ;;
          _ <- lift (subscripts mydata (last_cut ++ [K "title"])) ;;
          ret (Some p))
         [KeyError; IndexError]
         (ret None) ;;
     match infos with
     | None => ret JNull
     | Some ps =>
         l <- lift (Py.iter ps) ;; select_large_info E channel_id data l
     end)).
  { intros data. apply within_bind; [preserved|]. intros [ps|].
    - apply within_bind; [preserved|]. intros l. apply Hd.
    - apply (within_weaken _ _ 0); [lia|preserved]. }
  apply (within_weaken _ _ (b + (0 + (c + d)))); [lia|].
  apply within_bind; [done|]. intros data.
  destruct (negb (Py.truthy data));
    [apply (within_weaken _ _ 0); [lia|preserved]|].
  apply within_bind; [preserved|]. intros [code|];
    [|apply (within_weaken _ _ 0); [lia|preserved]].
  destruct (Py.eq_int code 201 || Py.eq_int code 208).
  - destruct n; [apply (within_weaken _ _ 0); [lia|preserved]|].
    apply within_bind; [done|]. intros ok.
    destruct ok; [|apply (within_weaken _ _ 0); [lia|preserved]].
    apply (within_weaken _ _ (0 + (0 + d))); [lia|apply Hm3u8].
  - destruct (negb (Py.eq_int code 100));
      [apply (within_weaken _ _ 0); [lia|preserved]|].
    apply (within_weaken _ _ (0 + (0 + d))); [lia|apply Hm3u8].
Qed.

(** X16.  [get_playlist_info] never retries: whatever its
    [max_attempts] and whatever the upstream answers, it makes at most
    one now-playing GET, at most four POSTs of the session manager
    (the guard of [get] and one re-authentication) and at most one
    fetch of a master playlist; it fetches no variant playlist and no
    segment, and sends no telemetry. *)
Theorem get_playlist_info_budget (E : Env) (guid channel_id : json)
  (use_cache : bool) (max_attempts : nat) (st st' : State)
  (r : outcome json) :
  get_playlist_info E guid channel_id use_cache max_attempts st = (r, st') ->
  issued RestGet (log st') <= issued RestGet (log st) + 1
  /\ issued RestPost (log st') <= issued RestPost (log st) + 4
  /\ issued MasterGet (log st') <= issued MasterGet (log st) + 1
  /\ issued VariantGet (log st') = issued VariantGet (log st)
  /\ issued SegmentGet (log st') = issued SegmentGet (log st)
  /\ telemetry (log st') = telemetry (log st).
Proof.
  intros H. repeat split.
  - eapply (get_playlist_info_within E RestGet 1 0 0) in H;
      [unfold within in H; lia|..].
    + apply get_within_get.
    + apply within_quiet. quiet.
    + intros data l. apply within_quiet.
      by apply select_large_info_quiet.
  - eapply (get_playlist_info_within E RestPost 2 2 0) in H;
      [unfold within in H; lia|..].
    + apply get_within_post.
    + apply within_authenticate.
    + intros data l. apply within_quiet.
      by apply select_large_info_quiet.
  - eapply (get_playlist_info_within E MasterGet 0 0 1) in H;
      [unfold within in H; lia|..].
    + apply within_quiet. quiet.
    + apply within_quiet. quiet.
    + intros data l. apply select_large_info_within.
  - by apply (get_playlist_info_quiet E VariantGet) in H.
  - by apply (get_playlist_info_quiet E SegmentGet) in H.
  - apply (frame_get_playlist_info (R:=silent) E) in H; [done|..].
    + apply silent_session_request.
    + apply silent_store_playlist.
Qed.

Lemma get_playlist_info_budget_witness :
  let E := Upstream.env Upstream.nominal in
  let st := Upstream.warm Upstream.variant_url in
  let st' := (get_playlist_info E Upstream.guid (JStr "purejazz") false 5
                st).2 in
  issued RestGet (log st') <= issued RestGet (log st) + 1
  /\ telemetry (log st') = telemetry (log st).
Proof.
  intros E st st'.
  destruct (get_playlist_info_budget E Upstream.guid (JStr "purejazz") false
              5 st st'
              (get_playlist_info E Upstream.guid (JStr "purejazz") false 5
                 st).1)
    as (H1 & _ & _ & _ & _ & H2).
  - apply surjective_pairing.
  - by split.
Defined.

(** ** The handler *)

(** X17.  A request whose path does not end in .aac never fetches a
    segment: playlist requests, key requests and everything the handler
    refuses leave the segment server alone. *)
Theorem do_GET_no_segment_fetch (E : Env) (depth : nat) (path : string)
  (st st' : State) (r : outcome response) :
  PyStr.endswith path ".aac" = false ->
  do_GET E depth path st = (r, st') ->
  issued SegmentGet (log st') = issued SegmentGet (log st).
Proof.
  intros Ha. unfold do_GET. rewrite Ha.
  destruct (PyStr.endswith path ".m3u8").
  - intros H.
    apply bind_inv in H as [(last & s1 & H1 & H)|(e & H1 & _)];
      unfold lift in H1; simplify_eq; [|done].
    apply bind_inv in H as [(data & s2 & H2 & H)|(e & H2 & _)];
      apply (quiet_get_playlist E SegmentGet) in H2; try done.
    destruct data as [text|]; [destruct (negb _)|]; unfold ret in H;
      by simplify_eq.
  - destruct (PyStr.endswith path "/key/1"); unfold ret; intros H;
      by simplify_eq.
Qed.

Lemma do_GET_no_segment_fetch_witness :
  let E := Upstream.env Upstream.nominal in
  let st := Upstream.warm Upstream.variant_url in
  issued SegmentGet (log (do_GET E 3 "/purejazz.m3u8" st).2)
  = issued SegmentGet (log st).
Proof.
  intros E st.
  apply (do_GET_no_segment_fetch E 3 "/purejazz.m3u8" st _
           (do_GET E 3 "/purejazz.m3u8" st).1); [reflexivity|].
  apply surjective_pairing.
Defined.

(** ** The catalog is fetched once *)

(** X18.  Once [get_channels] has delivered a non-empty catalog (and
    not the pair it returns when the listing cannot be fetched), the
    catalog is stored in the object, and every later call returns it
    without any upstream call or change of state. *)
Theorem get_channels_cached (E : Env) (st s1 : State) (c : json) :
  get_channels E st = (Ret c, s1) ->
  Py.truthy c = true ->
  c <> JArr [JNull; JNull] ->
  channels s1 = c /\ get_channels E s1 = (Ret c, s1).
Proof.
  intros H Hc Hpair.
  assert (Hstored : channels s1 = c).
  { unfold get_channels in H.
    apply bind_ret_inv in H as (ch & s0 & [= <- <-] & H).
    destruct (Py.truthy (channels st)) eqn:Hch; cbn [negb] in H.
    { unfold ret in H. by simplify_eq. }
    apply bind_ret_inv in H as (data & s2 & _ & H).
    destruct (negb (Py.truthy data)).
    { unfold ret in H. by simplify_eq. }
    apply try_except_ret_inv in H as [H|(e & s3 & _ & _ & H)].
    - apply bind_ret_inv in H as (c' & s3 & Hsub & H).
      unfold lift in Hsub. simplify_eq.
      apply bind_ret_inv in H as ([] & s4 & Hset & H).
      unfold set_channels in Hset. unfold ret in H. by simplify_eq.
    - unfold ret in H. by simplify_eq. }
  split; [done|].
  unfold get_channels, bind, ret. by rewrite Hstored, Hc.
Qed.

Lemma get_channels_cached_witness :
  let E := Upstream.env Upstream.nominal in
  let s1 := (get_channels E fresh).2 in
  channels s1 = JArr [Upstream.purejazz]
  /\ get_channels E s1 = (Ret (JArr [Upstream.purejazz]), s1).
Proof.
  intros E s1.
  apply (get_channels_cached E fresh s1 (JArr [Upstream.purejazz])).
  - vm_compute. reflexivity.
  - reflexivity.
  - discriminate.
Defined.

(** ** The token accessor *)

Lemma split_absent sep m s :
  contains sep s = false -> PyStr.split sep m s = [s].
Proof.
  induction s as [|c s IH]; [done|]. simpl.
  intros [Hc Hs]%orb_false_iff. rewrite Hc. simpl. by rewrite (IH Hs).
Qed.

Lemma app_nil_r_s (s : string) : s +:+ "" = s.
Proof. induction s as [|c s IH]; [done|]. by rewrite app_cons, IH. Qed.

(** X19.  The token is what stands between the first equals sign of the
    SXMAKTOKEN cookie and the first comma after it, or the end of the
    cookie when no comma follows; reading it leaves the object as it
    is. *)
Theorem get_sxmak_token_value (st : State) (a b rest : string) :
  cookies st !! "SXMAKTOKEN" = Some (a +:+ "=" +:+ b +:+ rest) ->
  contains "=" a = false ->
  contains "," b = false ->
  rest = "" \/ (exists c, rest = String "," c) ->
  get_sxmak_token st = (Ret (JStr b), st).
Proof.
  intros Hv Ha Hb Hrest.
  unfold get_sxmak_token, try_except, bind, cookie, lift, ret.
  rewrite Hv.
  change ("=" +:+ b +:+ rest) with (String "=" (b +:+ rest)).
  rewrite (split_first _ _ _ Ha).
  change (Py.seq_index [a; b +:+ rest] 1) with (Ret (A:=string) (b +:+ rest)).
  destruct Hrest as [->|[c ->]].
  - rewrite app_nil_r_s, (split_absent _ _ _ Hb). reflexivity.
  - rewrite (split_first _ _ _ Hb). reflexivity.
Qed.

Lemma get_sxmak_token_value_witness :
  let st := mkState {["SXMAKTOKEN" := "token=abc123,v1"]} ∅ JNull [] in
  get_sxmak_token st = (Ret (JStr "abc123"), st).
Proof.
  intros st.
  apply (get_sxmak_token_value st "token" "abc123" ",v1");
    [reflexivity|reflexivity|reflexivity|].
  right. by exists "v1".
Defined.

(** ** The answers of the handler *)

(** X21.  Whenever the handler answers, the status is 200 or 500; a 200
    answer has a content type and a body that is not empty, and a 500
    answer has neither a content type nor a body. *)
Theorem do_GET_response_shape (E : Env) (depth : nat) (path : string)
  (st st' : State) (resp : response) :
  do_GET E depth path st = (Ret resp, st') ->
  (resp_status resp = 200%Z
   /\ resp_body resp <> ""
   /\ exists ct, resp_content_type resp = Some ct)
  \/ resp = mkResponse 500 None "".
Proof.
  unfold do_GET. intros H.
  destruct (PyStr.endswith path ".m3u8").
  { apply bind_ret_inv in H as (last & s1 & _ & H).
    apply bind_ret_inv in H as (data & s2 & _ & H).
    destruct data as [text|]; [|unfold ret in H; simplify_eq; by right].
    destruct (String.eqb text "") eqn:Ht; cbn [negb] in H; unfold ret in H;
      simplify_eq;
      [by right|left].
    apply String.eqb_neq in Ht. simpl. eauto. }
  destruct (PyStr.endswith path ".aac").
  { apply bind_ret_inv in H as (data & s2 & _ & H).
    destruct data as [bytes|]; [|unfold ret in H; simplify_eq; by right].
    destruct (String.eqb bytes "") eqn:Ht; cbn [negb] in H; unfold ret in H;
      simplify_eq;
      [by right|left].
    apply String.eqb_neq in Ht. simpl. eauto. }
  destruct (PyStr.endswith path "/key/1"); unfold ret in H; simplify_eq;
    [left|by right].
  simpl. repeat split; [done|by eauto].
Qed.

Lemma do_GET_response_shape_witness :
  let E := Upstream.env Upstream.nominal in
  let resp := mkResponse 200 (Some "text/plain") HLS_AES_KEY in
  (resp_status resp = 200%Z
   /\ resp_body resp <> ""
   /\ exists ct, resp_content_type resp = Some ct)
  \/ resp = mkResponse 500 None "".
Proof.
  intros E resp.
  apply (do_GET_response_shape E 1 "/purejazz/key/1" fresh fresh).
  reflexivity.
Defined.

(** ** The playlist cache *)

Lemma select_large_stores (E : Env) channel_id infos st st' u :
  select_large E channel_id infos st = (Ret (Some u), st') ->
  exists k, Py.hash channel_id = Ret k
            /\ playlists st' !! k = Some (Some u).
Proof.
  revert st. induction infos as [|info rest IH]; intros st H;
    cbn [select_large] in H; [done|].
  apply bind_ret_inv in H as (size & s1 & _ & H).
  destruct (Py.eq_str size "LARGE"); [|by eapply IH].
  apply bind_ret_inv in H as (x & s2 & _ & H).
  apply bind_ret_inv in H as (playlist_url & s3 & _ & H).
  apply bind_ret_inv in H as (v & s4 & _ & H).
  apply bind_ret_inv in H as (k & s5 & Hk & H).
  apply bind_ret_inv in H as ([] & s6 & Hstore & H).
  unfold lift in Hk. unfold store_playlist in Hstore. unfold ret in H.
  simplify_eq. exists k. split; [done|]. simpl. by rewrite lookup_insert_eq.
Qed.

(** X22.  A URL that [get_playlist_url] returns is the one the playlist
    cache holds for the channel on return, whether it came from the
    cache, from a fresh selection, or from a retry after
    re-authentication. *)
Theorem get_playlist_url_caches_result (E : Env) (guid channel_id : json)
  (use_cache : bool) (max_attempts : nat) (st st' : State) (u : string) :
  get_playlist_url E guid channel_id use_cache max_attempts st
  = (Ret (Some u), st') ->
  exists k, Py.hash channel_id = Ret k
            /\ playlists st' !! k = Some (Some u).
Proof.
  revert st. induction max_attempts as [|n IH]; intros st H;
    cbn [get_playlist_url] in H.
  all: apply bind_ret_inv in H as (x & s1 & _ & H).
  all: apply bind_ret_inv in H as (cached & s2 & Hcached & H).
  all: destruct cached as [url|];
    [ unfold ret in H; simplify_eq; destruct use_cache; [|done];
      apply bind_ret_inv in Hcached as (k & s3 & Hk & Hread);
      unfold lift in Hk; simplify_eq; by eauto |].
  all: apply bind_ret_inv in H as (data & s3 & _ & H).
  all: destruct (negb (Py.truthy data)); [done|].
  all: apply bind_ret_inv in H as (code & s4 & _ & H).
  all: destruct code as [code|]; [|done].
  all: destruct (Py.eq_int code 201 || Py.eq_int code 208).
  - done.
  - destruct (negb (Py.eq_int code 100)); [done|].
    apply bind_ret_inv in H as (infos & s5 & _ & H).
    destruct infos as [ps|]; [|done].
    apply bind_ret_inv in H as (l & s6 & _ & H).
    by eapply select_large_stores.
  - apply bind_ret_inv in H as (ok & s5 & _ & H).
    destruct ok; [by eapply IH|done].
  - destruct (negb (Py.eq_int code 100)); [done|].
    apply bind_ret_inv in H as (infos & s5 & _ & H).
    destruct infos as [ps|]; [|done].
    apply bind_ret_inv in H as (l & s6 & _ & H).
    by eapply select_large_stores.
Qed.

Lemma get_playlist_url_caches_result_witness :
  let E := Upstream.env Upstream.nominal in
  let st := Upstream.warm Upstream.variant_url in
  exists k, Py.hash (JStr "purejazz") = Ret k
            /\ playlists
                 (get_playlist_url E Upstream.guid (JStr "purejazz") false 5
                    st).2 !! k
               = Some (Some Upstream.variant_url).
Proof.
  intros E st.
  apply (get_playlist_url_caches_result E Upstream.guid (JStr "purejazz")
           false 5 st).
  vm_compute. reflexivity.
Defined.
